(** * nyx-modules GPS mock: the NMEA tail reader of [src/gps/parser_nmea.cpp]

    A shallow embedding of [ParserNmea] (session start/stop, the chunked
    read loop, the per-sentence dispatch of [ProcessRxCommand], the fix
    aggregation of [SetGps*_Data]) and the properties of its session
    life cycle, read offset and emitted events.

    C [double] is IEEE binary64, embedded as the kernel's [float];
    C [int]/[long]/[size_t] values are embedded as [Z] (no arithmetic
    here comes near the word size: offsets are file positions, latencies
    are configuration integers); [char *] strings are [string]; the bytes
    of the tracked file are [list byte]. *)

From Stdlib Require Import ZArith List String Ascii Bool Lia.
From Stdlib Require Import Floats.PrimFloat.
Import ListNotations.

Set Warnings "-inexact-float".
Local Open Scope string_scope.
Local Open Scope list_scope.
Local Open Scope Z_scope.

(** ** Faults of the C program

    What C leaves undefined is made explicit: a call through a null
    pointer, an array access outside its bounds.  [FuelExhausted] belongs
    to the model of the [while] loop only and is proved unreachable for
    the streams modelled here, whose reads succeed. *)

Inductive fault : Type :=
| NullDeref
| OutOfBounds
| FuelExhausted.

Inductive res (A : Type) : Type :=
| Ok (a : A)
| Fault (f : fault).

Arguments Ok {A} a.
Arguments Fault {A} f.

Definition bind {A B : Type} (c : res A) (k : A -> res B) : res B :=
  match c with
  | Ok a => k a
  | Fault f => Fault f
  end.

Declare Scope res_scope.
Delimit Scope res_scope with res.
Notation "x <- c ;; k" := (bind c (fun x => k))
  (at level 100, c at next level, right associativity) : res_scope.
Notation "' p <- c ;; k" := (bind c (fun p => k))
  (at level 100, p pattern, c at next level, right associativity) : res_scope.
Local Open Scope res_scope.

(** ** The C library, as far as the parser uses it *)

Module CLib.

Definition strlen (s : string) : Z := Z.of_nat (String.length s).

(** [strstr hay needle]: the suffix of [hay] that starts at the first
    occurrence of [needle], [None] for the null pointer. *)
Fixpoint strstr (hay needle : string) : option string :=
  if String.prefix needle hay then Some hay
  else match hay with
       | EmptyString => None
       | String _ hay' => strstr hay' needle
       end.

(** [%.Ns]: at most [n] characters of the argument. *)
Definition precision (n : nat) (s : string) : string := String.substring 0 n s.

(** [snprintf(buf, size, ...)] keeps at most [size - 1] characters of
    the formatted text. *)
Definition snprintf (size : Z) (formatted : string) : string :=
  String.substring 0 (Z.to_nat (size - 1)) formatted.

(** [strncmp a b n]: 0 when the first [n] characters agree (or both
    strings end before), else the difference of the first two
    characters that differ. *)
Fixpoint strncmp (a b : string) (n : nat) : Z :=
  match n with
  | O => 0
  | S n' =>
      match a, b with
      | EmptyString, EmptyString => 0
      | EmptyString, String cb _ => - Z.of_nat (nat_of_ascii cb)
      | String ca _, EmptyString => Z.of_nat (nat_of_ascii ca)
      | String ca a', String cb b' =>
          if Ascii.eqb ca cb then strncmp a' b' n'
          else Z.of_nat (nat_of_ascii ca) - Z.of_nat (nat_of_ascii cb)
      end
  end.

(** A stream opened for reading: the bytes of the file, the position
    and the end-of-file indicator. *)
Record FILE : Type := mkFILE
  { fdata : list Byte.byte;
    fpos : Z;
    feof : bool }.

(** [fopen(path, "r")] on a file that may be missing. *)
Definition fopen (file : option (list Byte.byte)) : option FILE :=
  match file with
  | Some data => Some (mkFILE data 0 false)
  | None => None
  end.

(** [fseek(fp, off, SEEK_SET)]: a negative offset is refused and leaves
    the stream as it was; otherwise the position is set and the
    end-of-file indicator cleared. *)
Definition fseek (fp : FILE) (off : Z) : FILE :=
  if off <? 0 then fp else mkFILE (fdata fp) off false.

(** [fread(buf, 1, n, fp)]: the bytes delivered and the stream after
    the call; the end-of-file indicator is set when fewer than [n]
    bytes were left.  This is a read that succeeds.  A read that fails
    (the error indicator set, the end-of-file indicator not) is not
    modelled: the parser never tests the error indicator, and on such a
    stream its loop would not end. *)
Definition fread (n : nat) (fp : FILE) : list Byte.byte * FILE :=
  let got := firstn n (skipn (Z.to_nat (fpos fp)) (fdata fp)) in
  (got,
   mkFILE (fdata fp)
          (fpos fp + Z.of_nat (List.length got))
          (feof fp || (Nat.ltb (List.length got) n))).

End CLib.
Import CLib.

(** ** Data exchanged with the consumer

    The structures handed to the four consumer callbacks.  Their
    declarations live in the platform's GPS headers; the members listed
    are the ones the parser assigns, every other member keeps the zero of
    the [memset] that precedes the assignments. *)

Record GpsLocation : Type := mkGpsLocation
  { loc_latitude : float;
    loc_longitude : float;
    loc_altitude : float;
    loc_speed : float;
    loc_accuracy : float;
    loc_timestamp : Z }.

Record GpsSvInfo : Type := mkGpsSvInfo
  { prn : Z;
    snr : Z;
    elevation : float;
    azimuth : float }.

Definition GpsSvInfo_zero : GpsSvInfo := mkGpsSvInfo 0 0 0%float 0%float.

(** [sv_list] is an array of fixed capacity: the list always has as many
    entries as the array has slots. *)
Record GpsSvStatus : Type := mkGpsSvStatus
  { num_svs : Z;
    sv_list : list GpsSvInfo }.

(** The two session states passed to [SetGpsStatus]. *)
Inductive gps_status_value : Type :=
| NYX_GPS_STATUS_SESSION_BEGIN
| NYX_GPS_STATUS_SESSION_END.

Record GpsStatus : Type := mkGpsStatus
  { status : gps_status_value }.

(** One invocation of a consumer callback. *)
Inductive callback : Type :=
| parser_loc_cb (location : GpsLocation)
| parser_sv_cb (sv_status : GpsSvStatus)
| parser_nmea_cb (timestamp : Z) (nmea : string) (length : Z)
| parser_status_cb (gps_status : GpsStatus).

(** ** Decoded sentences ([CNMEAParserData])

    The records of the NMEA parser library, with the members
    [ParserNmea] reads (the others are only logged). *)

Record GGA_DATA_T : Type := mkGGA
  { gga_dLatitude : float;
    gga_dLongitude : float;
    gga_dAltitudeMSL : float;
    gga_dHDOP : float }.

Record SAT_INFO_T : Type := mkSAT
  { nPRN : Z;
    nSNR : Z;
    dElevation : float;
    dAzimuth : float }.

Record GSV_DATA_T : Type := mkGSV
  { nSatsInView : Z;
    SatInfo : list SAT_INFO_T }.

Record GSA_DATA_T : Type := mkGSA
  { gsa_dPDOP : float;
    gsa_dHDOP : float;
    gsa_dVDOP : float }.

Record RMC_DATA_T : Type := mkRMC
  { rmc_dLatitude : float;
    rmc_dLongitude : float;
    rmc_dAltitudeMSL : float;
    rmc_dSpeedKnots : float;
    rmc_dTrackAngle : float }.

(** [CNMEAParserData::ERROR_E], by its integer value. *)
Definition ERROR_E : Type := Z.
Definition ERROR_OK : ERROR_E := 0.

(** ** FixState: [mGpsData] *)

Record gps_data : Type := mk_gps_data
  { latitude : float;
    longitude : float;
    altitude : float;
    speed : float;
    direction : float;
    horizAccuracy : float }.

(** [memset(&mGpsData, 0, sizeof(mGpsData))] *)
Definition gps_data_zero : gps_data :=
  mk_gps_data 0%float 0%float 0%float 0%float 0%float 0%float.

(** ** The dispatch queue

    A task is one of the four closures [ProcessRxCommand] enqueues: the
    decoded record and the rebuilt sentence text it captured. *)

Inductive task : Type :=
| TaskGGA (ggaData : GGA_DATA_T) (nmea_data : string)
| TaskGSV (gsvData : GSV_DATA_T) (nmea_data : string)
| TaskGSA (gsaData : GSA_DATA_T) (nmea_data : string)
| TaskRMC (rmcData : RMC_DATA_T) (nmea_data : string).

(** Modelled from the spec: [ParserThreadPool] is declared in
    parser_thread_pool.h, not in parser_nmea.cpp.  The spec gives it one
    worker that runs the tasks one at a time in the order they were enqueued, spaced
    by [interval]; [enqueue] never blocks; shutting the pool down drains
    or discards what is left and joins the worker.  Here the pool is its
    interval and its pending tasks, oldest first; deleting it discards the
    pending tasks (tasks the worker still runs before the join are worker
    steps that come before the deletion). *)
Record ParserThreadPool : Type := mkPool
  { nThreads : Z;
    interval : Z;
    pending : list task }.

Definition pool_enqueue (p : ParserThreadPool) (t : task) : ParserThreadPool :=
  mkPool (nThreads p) (interval p) (pending p ++ [t]).

(** ** The environment of one call

    What the parser reads and does not own: the tracked file
    ([None] when it does not exist, else a file that can be read, with
    its content), the configuration file as
    [gps_config_load_file] would load it ([None] when it is not
    available) and the wall clock, as the sequence of [timeval]s that
    successive [gettimeofday] calls return. *)

Record timeval : Type := mk_timeval
  { tv_sec : Z;
    tv_usec : Z }.

(** A loaded [GKeyFile]: (group, key) to integer value, first match wins. *)
Definition GKeyFile : Type := list (string * string * Z).

Record env : Type := mk_env
  { nmea_file : option (list Byte.byte);
    config_file : option GKeyFile;
    gettimeofday : nat -> timeval }.

(** [g_key_file_get_integer(keyfile, group, key, NULL)]: 0 when the key
    is not there. *)
Fixpoint g_key_file_get_integer (keyfile : GKeyFile) (group key : string) : Z :=
  match keyfile with
  | [] => 0
  | (g, k, v) :: rest =>
      if String.eqb g group && String.eqb k key then v
      else g_key_file_get_integer rest group key
  end.

Definition gps_config_load_file (e : env) : option GKeyFile := config_file e.

(** ** What the parser is built on

    [CNMEAParser] is the base class from the NMEA parser library:
    [ParserNmea] inherits its decoder state and calls into it.  The
    library is a collaborator, so its state and operations are an
    interface here.  [ProcessNMEABuffer] scans a buffer and calls the
    virtual [ProcessRxCommand] once for every complete sentence that
    passed the checksum test; [frames] gives the decoder after the scan,
    the (command, data, checksum) triples of those calls in order, and
    the error code of the scan. *)

Definition rx_command : Type := (string * string * string)%type.

Class CNMEAParser : Type := mkCNMEAParser
  { nmea : Type;
    ResetData : nmea -> nmea;
    CNMEAParser_ProcessRxCommand : nmea -> string -> string -> nmea;
    GetGPGGA : nmea -> ERROR_E * GGA_DATA_T;
    GetGPGSV : nmea -> ERROR_E * GSV_DATA_T;
    GetGPGSA : nmea -> ERROR_E * GSA_DATA_T;
    GetGPRMC : nmea -> ERROR_E * RMC_DATA_T;
    frames : nmea -> list Byte.byte -> nmea * list rx_command * ERROR_E }.

(** Constants that come from headers: the default latency and the
    configuration group of gps_storage.h, the capacity of
    [GpsSvStatus.sv_list] of the platform's GPS header. *)
Class Constants : Type := mkConstants
  { DEFAULT_LATENCY : Z;
    GPS_MOCK_INFO : string;
    GPS_MAX_SVS : nat }.

Definition nmea_file_path : string := "/media/internal/location".
Definition nmea_file_name : string := "gps.nmea".

(** [struct inotify_event] and the two event bits of <sys/inotify.h>. *)
Record inotify_event : Type := mk_inotify_event
  { mask : Z }.

Definition IN_MODIFY : Z := 2.
Definition IN_MOVED_TO : Z := 128.

(** Arrays of C: an access outside the bounds is a fault. *)
Definition array_get {A : Type} (a : list A) (i : Z) : res A :=
  if i <? 0 then Fault OutOfBounds
  else match nth_error a (Z.to_nat i) with
       | Some x => Ok x
       | None => Fault OutOfBounds
       end.

Definition array_upd {A : Type} (a : list A) (i : Z) (f : A -> A) : res (list A) :=
  x <- array_get a i ;;
  Ok (firstn (Z.to_nat i) a ++ f x :: skipn (S (Z.to_nat i)) a).

Section Parser.

Context {P : CNMEAParser} {K : Constants}.

(** ** The parser object

    The members of the [ParserNmea] singleton ([base] is its
    [CNMEAParser] part), and next to them the state around it that the
    code acts on: whether [parser_inotify_handler] is registered with the
    change notification, the consumer callbacks invoked so far (oldest
    first), the number of wall-clock readings taken, and the [fread]
    calls made so far, each as the position it started at and the bytes
    it delivered. *)

Record ParserNmea : Type := mkParserNmea
  { base : nmea;
    mNmeaFp : option FILE;
    mSeekOffset : Z;
    mStopParser : bool;
    mParserThreadPoolObj : option ParserThreadPool;
    mGpsData : gps_data;
    watch : bool;
    delivered : list callback;
    clock_reads : nat;
    freads : list (Z * list Byte.byte) }.

Definition set_base (s : ParserNmea) (v : nmea) : ParserNmea :=
  mkParserNmea v (mNmeaFp s) (mSeekOffset s) (mStopParser s)
    (mParserThreadPoolObj s) (mGpsData s) (watch s) (delivered s)
    (clock_reads s) (freads s).

Definition set_mNmeaFp (s : ParserNmea) (v : option FILE) : ParserNmea :=
  mkParserNmea (base s) v (mSeekOffset s) (mStopParser s)
    (mParserThreadPoolObj s) (mGpsData s) (watch s) (delivered s)
    (clock_reads s) (freads s).

Definition set_mSeekOffset (s : ParserNmea) (v : Z) : ParserNmea :=
  mkParserNmea (base s) (mNmeaFp s) v (mStopParser s)
    (mParserThreadPoolObj s) (mGpsData s) (watch s) (delivered s)
    (clock_reads s) (freads s).

Definition set_mStopParser (s : ParserNmea) (v : bool) : ParserNmea :=
  mkParserNmea (base s) (mNmeaFp s) (mSeekOffset s) v
    (mParserThreadPoolObj s) (mGpsData s) (watch s) (delivered s)
    (clock_reads s) (freads s).

Definition set_mParserThreadPoolObj (s : ParserNmea)
    (v : option ParserThreadPool) : ParserNmea :=
  mkParserNmea (base s) (mNmeaFp s) (mSeekOffset s) (mStopParser s)
    v (mGpsData s) (watch s) (delivered s) (clock_reads s) (freads s).

Definition set_mGpsData (s : ParserNmea) (v : gps_data) : ParserNmea :=
  mkParserNmea (base s) (mNmeaFp s) (mSeekOffset s) (mStopParser s)
    (mParserThreadPoolObj s) v (watch s) (delivered s) (clock_reads s)
    (freads s).

Definition set_watch (s : ParserNmea) (v : bool) : ParserNmea :=
  mkParserNmea (base s) (mNmeaFp s) (mSeekOffset s) (mStopParser s)
    (mParserThreadPoolObj s) (mGpsData s) v (delivered s) (clock_reads s)
    (freads s).

Definition set_delivered (s : ParserNmea) (v : list callback) : ParserNmea :=
  mkParserNmea (base s) (mNmeaFp s) (mSeekOffset s) (mStopParser s)
    (mParserThreadPoolObj s) (mGpsData s) (watch s) v (clock_reads s)
    (freads s).

Definition set_clock_reads (s : ParserNmea) (v : nat) : ParserNmea :=
  mkParserNmea (base s) (mNmeaFp s) (mSeekOffset s) (mStopParser s)
    (mParserThreadPoolObj s) (mGpsData s) (watch s) (delivered s) v
    (freads s).

Definition set_freads (s : ParserNmea) (v : list (Z * list Byte.byte)) : ParserNmea :=
  mkParserNmea (base s) (mNmeaFp s) (mSeekOffset s) (mStopParser s)
    (mParserThreadPoolObj s) (mGpsData s) (watch s) (delivered s)
    (clock_reads s) v.

(** Invoking a consumer callback. *)
Definition deliver (s : ParserNmea) (c : callback) : ParserNmea :=
  set_delivered s (delivered s ++ [c]).

(** The state the constructor leaves. *)
Definition ParserNmea_new (b : nmea) : ParserNmea :=
  mkParserNmea b None 0 false None gps_data_zero false [] O [].

(** ** Event delivery *)

(** [getCurrentTime]: one reading of the wall clock, in milliseconds. *)
Definition getCurrentTime (e : env) (s : ParserNmea) : Z * ParserNmea :=
  let tval := gettimeofday e (clock_reads s) in
  (tv_sec tval * 1000 + Z.quot (tv_usec tval) 1000,
   set_clock_reads s (S (clock_reads s))).

Definition sendLocationUpdates (e : env) (s : ParserNmea) : ParserNmea :=
  let d := mGpsData s in
  let '(now, s) := getCurrentTime e s in
  deliver s (parser_loc_cb
               (mkGpsLocation (latitude d) (longitude d) (altitude d)
                              (speed d) (horizAccuracy d) now)).

Definition sendNmeaUpdates (e : env) (rawNmea : option string)
    (s : ParserNmea) : ParserNmea :=
  match rawNmea with
  | Some text =>
      let '(now, s) := getCurrentTime e s in
      deliver s (parser_nmea_cb now text (strlen text))
  | None => s
  end.

(** The four [SetGps*_Data] methods return [bool]; the value is
    [ERROR_OK] converted, and no caller looks at it. *)
Definition ERROR_OK_as_bool : bool := negb (ERROR_OK =? 0).

Definition SetGpsGGA_Data (e : env) (ggaData : GGA_DATA_T) (nmea_data : string)
    (s : ParserNmea) : bool * ParserNmea :=
  let d := mGpsData s in
  let d := mk_gps_data (gga_dLatitude ggaData) (longitude d) (altitude d)
                       (speed d) (direction d) (horizAccuracy d) in
  let d := mk_gps_data (latitude d) (gga_dLongitude ggaData) (altitude d)
                       (speed d) (direction d) (horizAccuracy d) in
  let d := mk_gps_data (latitude d) (longitude d) (gga_dAltitudeMSL ggaData)
                       (speed d) (direction d) (horizAccuracy d) in
  let d := mk_gps_data (latitude d) (longitude d) (altitude d)
                       (speed d) (direction d) (gga_dHDOP ggaData) in
  let s := set_mGpsData s d in
  let s := sendLocationUpdates e s in
  let s := sendNmeaUpdates e (Some nmea_data) s in
  (ERROR_OK_as_bool, s).

(** [memset(&sv_status, 0, sizeof(GpsSvStatus))] *)
Definition GpsSvStatus_zero : GpsSvStatus :=
  mkGpsSvStatus 0 (repeat GpsSvInfo_zero GPS_MAX_SVS).

(** The body of the copy loop at index [i]: four assignments, each
    reading [gsvData.SatInfo[i]] and writing [sv_status.sv_list[i]]. *)
Definition sv_copy_one (gsvData : GSV_DATA_T) (i : Z)
    (sv : GpsSvStatus) : res GpsSvStatus :=
  sat <- array_get (SatInfo gsvData) i ;;
  l <- array_upd (sv_list sv) i
         (fun x => mkGpsSvInfo (nPRN sat) (snr x) (elevation x) (azimuth x)) ;;
  sat <- array_get (SatInfo gsvData) i ;;
  l <- array_upd l i
         (fun x => mkGpsSvInfo (prn x) (nSNR sat) (elevation x) (azimuth x)) ;;
  sat <- array_get (SatInfo gsvData) i ;;
  l <- array_upd l i
         (fun x => mkGpsSvInfo (prn x) (snr x) (dElevation sat) (azimuth x)) ;;
  sat <- array_get (SatInfo gsvData) i ;;
  l <- array_upd l i
         (fun x => mkGpsSvInfo (prn x) (snr x) (elevation x) (dAzimuth sat)) ;;
  Ok (mkGpsSvStatus (num_svs sv) l).

(** [for (i = ...; i < num_svs; i++)] with [n] iterations left. *)
Fixpoint sv_copy_loop (n : nat) (gsvData : GSV_DATA_T) (i : Z)
    (sv : GpsSvStatus) : res GpsSvStatus :=
  match n with
  | O => Ok sv
  | S n' =>
      sv <- sv_copy_one gsvData i sv ;;
      sv_copy_loop n' gsvData (i + 1) sv
  end.

Definition SetGpsGSV_Data (e : env) (gsvData : GSV_DATA_T) (nmea_data : string)
    (s : ParserNmea) : res (bool * ParserNmea) :=
  let sv_status := GpsSvStatus_zero in
  let sv_status := mkGpsSvStatus (nSatsInView gsvData) (sv_list sv_status) in
  sv_status <- sv_copy_loop (Z.to_nat (num_svs sv_status - 0)) gsvData 0 sv_status ;;
  let s := deliver s (parser_sv_cb sv_status) in
  let s := sendNmeaUpdates e (Some nmea_data) s in
  Ok (ERROR_OK_as_bool, s).

Definition SetGpsGSA_Data (e : env) (gsaData : GSA_DATA_T) (nmea_data : string)
    (s : ParserNmea) : bool * ParserNmea :=
  let s := sendNmeaUpdates e (Some nmea_data) s in
  (ERROR_OK_as_bool, s).

(** The knots-to-m/s factor of [SetGpsRMC_Data]. *)
Definition knots_to_mps : float := 0.514%float.

Definition SetGpsRMC_Data (e : env) (rmcData : RMC_DATA_T) (nmea_data : string)
    (s : ParserNmea) : bool * ParserNmea :=
  let d := mGpsData s in
  let d := mk_gps_data (rmc_dLatitude rmcData) (longitude d) (altitude d)
                       (speed d) (direction d) (horizAccuracy d) in
  let d := mk_gps_data (latitude d) (rmc_dLongitude rmcData) (altitude d)
                       (speed d) (direction d) (horizAccuracy d) in
  let d := mk_gps_data (latitude d) (longitude d) (rmc_dAltitudeMSL rmcData)
                       (speed d) (direction d) (horizAccuracy d) in
  let d := mk_gps_data (latitude d) (longitude d) (altitude d)
                       (PrimFloat.mul (rmc_dSpeedKnots rmcData) knots_to_mps)
                       (direction d) (horizAccuracy d) in
  let d := mk_gps_data (latitude d) (longitude d) (altitude d)
                       (speed d) (rmc_dTrackAngle rmcData) (horizAccuracy d) in
  let s := set_mGpsData s d in
  let s := sendLocationUpdates e s in
  let s := sendNmeaUpdates e (Some nmea_data) s in
  (ERROR_OK_as_bool, s).

Definition SetGpsStatus (st : gps_status_value) (s : ParserNmea) : ParserNmea :=
  deliver s (parser_status_cb (mkGpsStatus st)).

(** The location event built from FixState and the [n]-th clock reading. *)
Definition location_of (e : env) (d : gps_data) (n : nat) : callback :=
  parser_loc_cb
    (mkGpsLocation (latitude d) (longitude d) (altitude d) (speed d)
       (horizAccuracy d)
       (tv_sec (gettimeofday e n) * 1000 + Z.quot (tv_usec (gettimeofday e n)) 1000)).

(** The raw-sentence event for [text] at the [n]-th clock reading. *)
Definition raw_of (e : env) (text : string) (n : nat) : callback :=
  parser_nmea_cb
    (tv_sec (gettimeofday e n) * 1000 + Z.quot (tv_usec (gettimeofday e n)) 1000)
    text (strlen text).

(** ** Sentence dispatch *)

(** [mParserThreadPoolObj->enqueue(...)] *)
Definition enqueue (s : ParserNmea) (t : task) : res ParserNmea :=
  match mParserThreadPoolObj s with
  | Some p => Ok (set_mParserThreadPoolObj s (Some (pool_enqueue p t)))
  | None => Fault NullDeref
  end.

Definition ProcessRxCommand (s : ParserNmea) (pCmd pData checksum : string)
    : res (ERROR_E * ParserNmea) :=
  let s := set_base s (CNMEAParser_ProcessRxCommand (base s) pCmd pData) in
  let len := strlen pCmd + strlen pData + 7 in
  let nmea_data :=
    snprintf len
      ("$" ++ precision 5 pCmd ++ "," ++ pData ++ "*" ++ precision 2 checksum)%string in
  s <- match strstr pCmd "GPGGA" with
       | Some _ =>
           let '(err, ggaData) := GetGPGGA (base s) in
           if err =? ERROR_OK then enqueue s (TaskGGA ggaData nmea_data) else Ok s
       | None =>
       match strstr pCmd "GPGSV" with
       | Some _ =>
           let '(err, gsvData) := GetGPGSV (base s) in
           if err =? ERROR_OK then enqueue s (TaskGSV gsvData nmea_data) else Ok s
       | None =>
       match strstr pCmd "GPGSA" with
       | Some _ =>
           let '(err, gsaData) := GetGPGSA (base s) in
           if err =? ERROR_OK then enqueue s (TaskGSA gsaData nmea_data) else Ok s
       | None =>
       match strstr pCmd "GPRMC" with
       | Some _ =>
           let '(err, rmcData) := GetGPRMC (base s) in
           if err =? ERROR_OK then enqueue s (TaskRMC rmcData nmea_data) else Ok s
       | None => Ok s
       end end end end ;;
  Ok (ERROR_OK, s).

(** The calls of the virtual [ProcessRxCommand] made during one scan. *)
Fixpoint rx_all (cmds : list rx_command) (s : ParserNmea) : res ParserNmea :=
  match cmds with
  | [] => Ok s
  | (pCmd, pData, checksum) :: rest =>
      '(_, s) <- ProcessRxCommand s pCmd pData checksum ;;
      rx_all rest s
  end.

(** [ProcessNMEABuffer(pBuff, nBytesRead)] on the parser object. *)
Definition ProcessNMEABuffer (s : ParserNmea) (buf : list Byte.byte)
    : res (ERROR_E * ParserNmea) :=
  let '(b, cmds, nErr) := frames (base s) buf in
  s <- rx_all cmds (set_base s b) ;;
  Ok (nErr, s).

(** The body a queued closure runs. *)
Definition run_task (e : env) (t : task) (s : ParserNmea) : res ParserNmea :=
  match t with
  | TaskGGA ggaData nmea_data => Ok (snd (SetGpsGGA_Data e ggaData nmea_data s))
  | TaskGSV gsvData nmea_data =>
      '(_, s) <- SetGpsGSV_Data e gsvData nmea_data s ;; Ok s
  | TaskGSA gsaData nmea_data => Ok (snd (SetGpsGSA_Data e gsaData nmea_data s))
  | TaskRMC rmcData nmea_data => Ok (snd (SetGpsRMC_Data e rmcData nmea_data s))
  end.

(** Modelled from the spec: one step of the pool's single worker, which
    takes the oldest pending task and runs it; nothing happens when there
    is no pool or no task. *)
Definition worker_step (e : env) (s : ParserNmea) : res ParserNmea :=
  match mParserThreadPoolObj s with
  | Some p =>
      match pending p with
      | t :: rest =>
          run_task e t
            (set_mParserThreadPoolObj s
               (Some (mkPool (nThreads p) (interval p) rest)))
      | [] => Ok s
      end
  | None => Ok s
  end.

(** ** Session life cycle *)

Definition init (s : ParserNmea) : ParserNmea :=
  let d := mGpsData s in
  let d := mk_gps_data (latitude d) (longitude d) (-1)%float
                       (speed d) (direction d) (horizAccuracy d) in
  let d := mk_gps_data (latitude d) (longitude d) (altitude d)
                       (-1)%float (direction d) (horizAccuracy d) in
  let d := mk_gps_data (latitude d) (longitude d) (altitude d)
                       (speed d) (-1)%float (horizAccuracy d) in
  let d := mk_gps_data (latitude d) (longitude d) (altitude d)
                       (speed d) (direction d) (-1)%float in
  set_mGpsData s d.

Definition deinit (s : ParserNmea) : ParserNmea :=
  let s := set_base s (ResetData (base s)) in
  set_mGpsData s gps_data_zero.

(** Modelled from the spec: the change-notification bridge is declared
    in parser_inotify.h, not in parser_nmea.cpp.  It holds at most one
    registration of the handler for the tracked directory; registering
    sets it, unregistering clears it. *)
Definition parser_inotify_register (s : ParserNmea) : ParserNmea := set_watch s true.
Definition parser_inotify_unregister (s : ParserNmea) : ParserNmea := set_watch s false.

(** The number of bytes one [fread] of the loop asks for. *)
Definition chunk_bytes : nat := 512.

(** The [while (mNmeaFp && feof(mNmeaFp) == 0)] loop of [startParsing].
    [Some b]: the body returned [b]; [None]: the condition failed and
    control goes on after the loop. *)
Fixpoint read_loop (fuel : nat) (s : ParserNmea) : res (option bool * ParserNmea) :=
  match mNmeaFp s with
  | None => Ok (None, s)
  | Some fp =>
      if feof fp then Ok (None, s)
      else
        match fuel with
        | O => Fault FuelExhausted
        | S fuel' =>
            if mStopParser s then
              let s := set_mStopParser s false in
              let s := set_mNmeaFp s None in
              Ok (Some true, s)
            else
              let '(pBuff, fp') := fread chunk_bytes fp in
              let s := set_mNmeaFp s (Some fp') in
              let s := set_freads s (freads s ++ [(fpos fp, pBuff)]) in
              let nBytesRead := Z.of_nat (List.length pBuff) in
              '(nErr, s) <- ProcessNMEABuffer s pBuff ;;
              if negb (nErr =? ERROR_OK) then Ok (Some false, s)
              else
                let s := set_mSeekOffset s (mSeekOffset s + nBytesRead) in
                read_loop fuel' s
        end
  end.

(** Iterations the loop can need on a stream: every iteration but the
    last consumes a full chunk. *)
Definition loop_fuel (s : ParserNmea) : nat :=
  match mNmeaFp s with
  | Some fp => S (List.length (fdata fp))
  | None => O
  end.

Definition startParsing (e : env) (s : ParserNmea) : res (bool * ParserNmea) :=
  let s := set_mNmeaFp s (fopen (nmea_file e)) in
  match mNmeaFp s with
  | None => Ok (false, s)
  | Some _ =>
      let s := init s in
      let s := SetGpsStatus NYX_GPS_STATUS_SESSION_BEGIN s in
      match gps_config_load_file e with
      | None => Ok (false, s)
      | Some keyfile =>
          let latency := g_key_file_get_integer keyfile GPS_MOCK_INFO "LATENCY" in
          let latency := if latency =? 0 then DEFAULT_LATENCY else latency in
          let interval := Z.quot latency 2 in
          let s := match mParserThreadPoolObj s with
                   | None => set_mParserThreadPoolObj s (Some (mkPool 1 interval []))
                   | Some _ => s
                   end in
          let s := if mSeekOffset s =? 0 then s
                   else match mNmeaFp s with
                        | Some fp => set_mNmeaFp s (Some (fseek fp (mSeekOffset s)))
                        | None => s
                        end in
          '(r, s) <- read_loop (loop_fuel s) s ;;
          match r with
          | Some b => Ok (b, s)
          | None =>
              let s := match mNmeaFp s with
                       | Some _ => set_mNmeaFp s None
                       | None => s
                       end in
              let s := parser_inotify_register s in
              Ok (false, s)
          end
      end
  end.

Definition stopParsing (s : ParserNmea) : bool * ParserNmea :=
  let s := set_mSeekOffset s 0 in
  let s := parser_inotify_unregister s in
  let s := match mParserThreadPoolObj s with
           | Some _ => set_mParserThreadPoolObj s None
           | None => s
           end in
  let s := match mNmeaFp s with
           | Some _ => set_mNmeaFp (set_mStopParser s true) None
           | None => s
           end in
  let s := SetGpsStatus NYX_GPS_STATUS_SESSION_END s in
  let s := deinit s in
  (true, s).

(** The handler registered with the change notification; [ident] is the
    name of the file the event is about ([None] for a null pointer).  The
    [startParsing()] it calls is the free function of parser_interface.h,
    which the spec has re-enter the session start: it is taken to reach
    the method above on the singleton. *)
Definition parser_inotify_handler (e : env) (event : inotify_event)
    (ident : option string) (s : ParserNmea) : res ParserNmea :=
  match ident with
  | None => Ok s
  | Some ident =>
      if negb (strlen ident =? strlen nmea_file_name)
         || negb (strncmp ident nmea_file_name (String.length nmea_file_name) =? 0)
      then Ok s
      else if negb (Z.land (mask event) (Z.lor IN_MODIFY IN_MOVED_TO) =? 0) then
        let s := parser_inotify_unregister s in
        '(_, s) <- startParsing e s ;;
        Ok s
      else Ok s
  end.

(** ** Vocabulary of the statements *)

(** The decoder's scan reports no error on any buffer. *)
Definition decoder_never_fails : Prop :=
  forall (b : nmea) (buf : list Byte.byte), snd (frames b buf) = ERROR_OK.

(** [s'] differs from [s] at most in the decoder state and the queue. *)
Definition same_but_decoder_and_queue (s s' : ParserNmea) : Prop :=
  mNmeaFp s' = mNmeaFp s
  /\ mSeekOffset s' = mSeekOffset s
  /\ mStopParser s' = mStopParser s
  /\ mGpsData s' = mGpsData s
  /\ watch s' = watch s
  /\ delivered s' = delivered s
  /\ clock_reads s' = clock_reads s
  /\ freads s' = freads s.

(** The bytes of a stream from its position on. *)
Definition remaining (fp : FILE) : list Byte.byte :=
  skipn (Z.to_nat (fpos fp)) (fdata fp).

(** The dispatch interval [startParsing] derives from a loaded
    configuration. *)
Definition session_interval (keyfile : GKeyFile) : Z :=
  let latency := g_key_file_get_integer keyfile GPS_MOCK_INFO "LATENCY" in
  Z.quot (if latency =? 0 then DEFAULT_LATENCY else latency) 2.

(** The SessionBegin and SessionEnd status events. *)
Definition SessionBegin : callback :=
  parser_status_cb (mkGpsStatus NYX_GPS_STATUS_SESSION_BEGIN).
Definition SessionEnd : callback :=
  parser_status_cb (mkGpsStatus NYX_GPS_STATUS_SESSION_END).

(** A running session that reached the end of the file and waits for a
    change notification: no handle is open, the watch is registered, the
    queue [p] is in place and no stop is pending. *)
Definition awaiting_notification (s : ParserNmea) (p : ParserThreadPool) : Prop :=
  mNmeaFp s = None
  /\ watch s = true
  /\ mStopParser s = false
  /\ mParserThreadPoolObj s = Some p
  /\ 0 <= mSeekOffset s.

(** The [sv_list] entry the copy loop builds from a decoded satellite. *)
Definition sv_of_sat (sat : SAT_INFO_T) : GpsSvInfo :=
  mkGpsSvInfo (nPRN sat) (nSNR sat) (dElevation sat) (dAzimuth sat).

(** The text [ProcessRxCommand] formats into [nmea_data]. *)
Definition rebuilt_text (pCmd pData checksum : string) : string :=
  ("$" ++ precision 5 pCmd ++ "," ++ pData ++ "*" ++ precision 2 checksum)%string.

(** The reads of a log follow one another: each starts where the one
    before it ended, the first at [pos]. *)
Fixpoint contiguous (pos : Z) (log : list (Z * list Byte.byte)) : Prop :=
  match log with
  | [] => True
  | (q, c) :: rest => q = pos /\ contiguous (pos + Z.of_nat (List.length c)) rest
  end.

(** Every read of a log but the last delivered a full chunk, the last at
    most one. *)
Fixpoint chunked (log : list (Z * list Byte.byte)) : Prop :=
  match log with
  | [] => True
  | (_, c) :: rest =>
      match rest with
      | [] => (List.length c <= chunk_bytes)%nat
      | _ :: _ => List.length c = chunk_bytes /\ chunked rest
      end
  end.

(** The number of bytes a log delivered. *)
Definition bytes_of (log : list (Z * list Byte.byte)) : Z :=
  Z.of_nat (List.length (List.concat (map snd log))).

(** The sentence text a queued task carries. *)
Definition task_text (t : task) : string :=
  match t with
  | TaskGGA _ text | TaskGSV _ text | TaskGSA _ text | TaskRMC _ text => text
  end.

(** The location structure that reports FixState [d] at time [now]. *)
Definition snapshot (d : gps_data) (now : Z) : GpsLocation :=
  mkGpsLocation (latitude d) (longitude d) (altitude d) (speed d)
                (horizAccuracy d) now.

(** An event of the change notification that reports a modification. *)
Definition modified : inotify_event := mk_inotify_event IN_MODIFY.

End Parser.

(** ** A concrete setting

    A small instance of the interfaces, used to run the definitions on
    concrete inputs: a decoder that finds no sentence in any buffer, never
    reports an error and hands out fixed records. *)

Module Sample.

Definition gga : GGA_DATA_T :=
  mkGGA 48.1173%float 11.5167%float 545.4%float 0.9%float.

Definition rmc : RMC_DATA_T :=
  mkRMC 48.1173%float 11.5167%float 0%float 22.4%float 84.4%float.

Definition sat (n : Z) : SAT_INFO_T := mkSAT n 40 45%float 90%float.

(** A GSV record whose library-side array has 64 slots and which
    announces [n] satellites in view. *)
Definition gsv (n : Z) : GSV_DATA_T :=
  mkGSV n (map (fun k => sat (Z.of_nat k)) (seq 1 64)).

Definition gsa : GSA_DATA_T := mkGSA 1.5%float 0.9%float 1.2%float.

#[export] Instance decoder : CNMEAParser :=
  mkCNMEAParser unit
    (fun b => b)
    (fun b _ _ => b)
    (fun _ => (ERROR_OK, gga))
    (fun _ => (ERROR_OK, gsv 3))
    (fun _ => (ERROR_OK, gsa))
    (fun _ => (ERROR_OK, rmc))
    (fun b _ => (b, [], ERROR_OK)).

#[export] Instance constants : Constants :=
  mkConstants 1000 "GPS_MOCK_INFO" 32.

Definition clock (n : nat) : timeval := mk_timeval 1600000000 (Z.of_nat n * 1000).

(** 600 bytes of file content. *)
Definition content : list Byte.byte := repeat Byte.x24 600.

Definition keyfile : GKeyFile := [("GPS_MOCK_INFO", "LATENCY", 400)].

(** File and configuration present. *)
Definition env_ok : env := mk_env (Some content) (Some keyfile) clock.

(** File present, configuration file not available. *)
Definition env_no_config : env := mk_env (Some content) None clock.

(** Configuration present but without a [LATENCY] key. *)
Definition env_no_latency : env := mk_env (Some content) (Some []) clock.

(** The file after 100 more bytes were appended to it. *)
Definition grown : list Byte.byte := content ++ repeat Byte.x0a 100.
Definition env_grown : env := mk_env (Some grown) (Some keyfile) clock.

(** Tracked file missing. *)
Definition env_no_file : env := mk_env None (Some keyfile) clock.

(** The object right after construction. *)
Definition fresh : ParserNmea := ParserNmea_new tt.

(** A session that read the 600 bytes, reached the end of the file and
    waits for a change notification; a GGA task has run meanwhile. *)
Definition waiting : ParserNmea :=
  mkParserNmea tt None 600 false (Some (mkPool 1 200 []))
    (mk_gps_data 48.1173%float 11.5167%float 545.4%float (-1)%float
                 (-1)%float 0.9%float)
    true [parser_status_cb (mkGpsStatus NYX_GPS_STATUS_SESSION_BEGIN)] O
    [(0, repeat Byte.x24 512); (512, repeat Byte.x24 88)].

(** The parser as a start leaves it that opened the file and then
    failed for want of the configuration: the handle is still open. *)
Definition leaked : ParserNmea :=
  SetGpsStatus NYX_GPS_STATUS_SESSION_BEGIN
    (init (set_mNmeaFp fresh (Some (mkFILE content 0 false)))).

End Sample.

(** ** Other decoders

    Three more instances of the decoder interface, to run the
    definitions where the decoder misbehaves or finds sentences. *)

Module Rejecting.

(** A decoder that counts its scans and rejects the second one. *)
Definition decoder : CNMEAParser :=
  mkCNMEAParser nat
    (fun _ => O)
    (fun b _ _ => b)
    (fun _ => (ERROR_OK, Sample.gga))
    (fun _ => (ERROR_OK, Sample.gsv 3))
    (fun _ => (ERROR_OK, Sample.gsa))
    (fun _ => (ERROR_OK, Sample.rmc))
    (fun b _ => (S b, [], if Nat.eqb b 1 then 2 else ERROR_OK)).

Definition fresh : @ParserNmea decoder := @ParserNmea_new decoder O.

End Rejecting.

Module Broken.

(** A decoder whose getters all report an error. *)
Definition decoder : CNMEAParser :=
  mkCNMEAParser unit
    (fun b => b)
    (fun b _ _ => b)
    (fun _ => (1, Sample.gga))
    (fun _ => (1, Sample.gsv 3))
    (fun _ => (1, Sample.gsa))
    (fun _ => (1, Sample.rmc))
    (fun b _ => (b, [], ERROR_OK)).

Definition fresh : @ParserNmea decoder := @ParserNmea_new decoder tt.

End Broken.

Module Scripted.

(** A decoder that frames three sentences in every buffer that is not
    empty: a GGA, a ZDA and an RMC sentence. *)
Definition sentences : list rx_command :=
  [("GPGGA", "123519,4807.038,N", "47");
   ("GPZDA", "201530.00,04,07,2002", "60");
   ("GPRMC", "123519,A,4807.038,N", "6A")].

Definition decoder : CNMEAParser :=
  mkCNMEAParser unit
    (fun b => b)
    (fun b _ _ => b)
    (fun _ => (ERROR_OK, Sample.gga))
    (fun _ => (ERROR_OK, Sample.gsv 3))
    (fun _ => (ERROR_OK, Sample.gsa))
    (fun _ => (ERROR_OK, Sample.rmc))
    (fun b buf => (b, match buf with [] => [] | _ :: _ => sentences end, ERROR_OK)).

(** A parser with a queue in place and one task pending. *)
Definition reading : @ParserNmea decoder :=
  @mkParserNmea decoder tt None 0 false
    (Some (mkPool 1 200 [TaskGSA Sample.gsa "$GPGSA,A,3*00"]))
    gps_data_zero false [] O [].

End Scripted.

(** * Properties *)

Section Properties.

Context {P : CNMEAParser} {K : Constants}.

(** ** FixState and the events built from it *)

(** C3 (amended): at session start [init] sets altitude, speed, direction
    and horizontal accuracy to -1 and leaves latitude and longitude as
    they were; at session end [deinit], and with it [stopParsing], zeroes
    every field of FixState. *)
Theorem C3_init_deinit_fix_state : forall s : ParserNmea,
  mGpsData (init s) =
    mk_gps_data (latitude (mGpsData s)) (longitude (mGpsData s))
                (-1)%float (-1)%float (-1)%float (-1)%float
  /\ mGpsData (deinit s) = gps_data_zero
  /\ mGpsData (snd (stopParsing s)) = gps_data_zero.
Proof.
  intros s; repeat split.
Qed.

Lemma SetGpsGGA_Data_spec : forall e g text s,
  let d := mk_gps_data (gga_dLatitude g) (gga_dLongitude g) (gga_dAltitudeMSL g)
             (speed (mGpsData s)) (direction (mGpsData s)) (gga_dHDOP g) in
  snd (SetGpsGGA_Data e g text s) =
    set_clock_reads
      (set_delivered (set_mGpsData s d)
         (delivered s ++ [location_of e d (clock_reads s);
                          raw_of e text (S (clock_reads s))]))
      (S (S (clock_reads s))).
Proof.
  intros e g text s; destruct s; cbn.
  unfold deliver, location_of, raw_of, set_delivered, set_clock_reads; cbn.
  rewrite <- app_assoc; reflexivity.
Qed.

Lemma SetGpsRMC_Data_spec : forall e r text s,
  let d := mk_gps_data (rmc_dLatitude r) (rmc_dLongitude r) (rmc_dAltitudeMSL r)
             (PrimFloat.mul (rmc_dSpeedKnots r) 0.514%float)
             (rmc_dTrackAngle r) (horizAccuracy (mGpsData s)) in
  snd (SetGpsRMC_Data e r text s) =
    set_clock_reads
      (set_delivered (set_mGpsData s d)
         (delivered s ++ [location_of e d (clock_reads s);
                          raw_of e text (S (clock_reads s))]))
      (S (S (clock_reads s))).
Proof.
  intros e r text s; destruct s; cbn.
  unfold deliver, location_of, raw_of, set_delivered, set_clock_reads; cbn.
  rewrite <- app_assoc; reflexivity.
Qed.

(** C5: applying a decoded RMC sentence with ground speed [k] knots
    emits a location event, followed by the raw-sentence event, and the
    location event carries speed [k * 0.514]. *)
Theorem C5_rmc_speed_conversion : forall e (r : RMC_DATA_T) text (s : ParserNmea),
  exists loc raw,
    delivered (snd (SetGpsRMC_Data e r text s)) =
      delivered s ++ [parser_loc_cb loc; raw]
    /\ loc_speed loc = PrimFloat.mul (rmc_dSpeedKnots r) 0.514%float
    /\ speed (mGpsData (snd (SetGpsRMC_Data e r text s))) =
         PrimFloat.mul (rmc_dSpeedKnots r) 0.514%float.
Proof.
  intros e r text s.
  rewrite SetGpsRMC_Data_spec; cbn.
  eexists; eexists; repeat split.
Qed.

(** C6 (amended): applying a GGA sentence and then an RMC sentence emits
    a location event after each application.  The RMC application always
    assigns altitude from its own record, so the second event carries the
    RMC record's altitude; what it retains from the GGA sentence is the
    horizontal accuracy, which RMC does not assign: fields are merged
    into FixState, not replaced wholesale. *)
Theorem C6_gga_then_rmc_merge : forall e (g : GGA_DATA_T) (r : RMC_DATA_T)
    text1 text2 (s : ParserNmea),
  let s1 := snd (SetGpsGGA_Data e g text1 s) in
  let s2 := snd (SetGpsRMC_Data e r text2 s1) in
  exists loc1 raw1 loc2 raw2,
    delivered s1 = delivered s ++ [parser_loc_cb loc1; raw1]
    /\ delivered s2 = delivered s1 ++ [parser_loc_cb loc2; raw2]
    /\ loc_altitude loc1 = gga_dAltitudeMSL g
    /\ loc_accuracy loc1 = gga_dHDOP g
    /\ loc_altitude loc2 = rmc_dAltitudeMSL r
    /\ loc_accuracy loc2 = gga_dHDOP g
    /\ loc_latitude loc2 = rmc_dLatitude r
    /\ loc_longitude loc2 = rmc_dLongitude r.
Proof.
  intros e g r text1 text2 s s1 s2; subst s2.
  rewrite SetGpsRMC_Data_spec; subst s1.
  rewrite SetGpsGGA_Data_spec; cbn.
  do 4 eexists; repeat split.
Qed.

(** ** Stopping *)

(** C10: [stopParsing] returns true in every state, running or not; it
    invokes the status callback exactly once, with SessionEnd, and no
    other callback; it zeroes FixState and resets the read offset to 0. *)
Theorem C10_stopParsing_unconditional : forall s : ParserNmea,
  fst (stopParsing s) = true
  /\ delivered (snd (stopParsing s)) =
       delivered s ++ [parser_status_cb (mkGpsStatus NYX_GPS_STATUS_SESSION_END)]
  /\ mGpsData (snd (stopParsing s)) = gps_data_zero
  /\ mSeekOffset (snd (stopParsing s)) = 0.
Proof.
  intros [b fp off stop pool d w out n log]; unfold stopParsing.
  destruct pool, fp; cbn; repeat split.
Qed.

(** ** Starting without the tracked file *)

(** C8: when the tracked file is missing, [startParsing] returns failure
    and does nothing else: no handle is held, FixState is not reset, no
    callback (SessionBegin included) is invoked, no queue is built, no
    watch is registered and the read offset stays. *)
Theorem C8_missing_file_fails_cleanly : forall e (s : ParserNmea),
  nmea_file e = None ->
  exists s',
    startParsing e s = Ok (false, s')
    /\ s' = set_mNmeaFp s None
    /\ mGpsData s' = mGpsData s
    /\ delivered s' = delivered s
    /\ mParserThreadPoolObj s' = mParserThreadPoolObj s
    /\ watch s' = watch s
    /\ mSeekOffset s' = mSeekOffset s
    /\ freads s' = freads s.
Proof.
  intros e s Hfile.
  exists (set_mNmeaFp s None).
  unfold startParsing; rewrite Hfile; cbn.
  repeat split.
Qed.

(** ** Sentences of other kinds *)

(** C7 (amended): for a sentence whose command contains none of GPGGA,
    GPGSV, GPGSA and GPRMC, [ProcessRxCommand] only lets the base class
    see the command: it enqueues no task and invokes no callback, so no
    raw-sentence event is emitted for it. *)
Theorem C7_unrecognized_sentence_emits_nothing :
  forall (s : ParserNmea) (pCmd pData checksum : string),
  strstr pCmd "GPGGA" = None ->
  strstr pCmd "GPGSV" = None ->
  strstr pCmd "GPGSA" = None ->
  strstr pCmd "GPRMC" = None ->
  exists s',
    ProcessRxCommand s pCmd pData checksum = Ok (ERROR_OK, s')
    /\ s' = set_base s (CNMEAParser_ProcessRxCommand (base s) pCmd pData)
    /\ mParserThreadPoolObj s' = mParserThreadPoolObj s
    /\ delivered s' = delivered s.
Proof.
  intros s pCmd pData checksum Hgga Hgsv Hgsa Hrmc.
  eexists; unfold ProcessRxCommand.
  rewrite Hgga, Hgsv, Hgsa, Hrmc; cbn.
  repeat split.
Qed.

(** ** The satellite copy loop *)

Lemma array_get_fault : forall (A : Type) (a : list A) i f,
  array_get a i = Fault f -> f = OutOfBounds.
Proof.
  intros A a i f; unfold array_get.
  destruct (i <? 0); [congruence|].
  destruct (nth_error a (Z.to_nat i)); congruence.
Qed.

Lemma array_get_outside : forall (A : Type) (a : list A) i,
  Z.of_nat (List.length a) <= i -> array_get a i = Fault OutOfBounds.
Proof.
  intros A a i Hi; unfold array_get.
  destruct (i <? 0); [reflexivity|].
  assert (Hnone : nth_error a (Z.to_nat i) = None)
    by (apply nth_error_None; lia).
  rewrite Hnone; reflexivity.
Qed.

Lemma array_upd_cases : forall (A : Type) (a : list A) i g,
  array_upd a i g = Fault OutOfBounds
  \/ exists l, array_upd a i g = Ok l /\ List.length l = List.length a.
Proof.
  intros A a i g; unfold array_upd, array_get.
  destruct (i <? 0) eqn:Hneg; [left; reflexivity|].
  destruct (nth_error a (Z.to_nat i)) as [x|] eqn:Hnth; [|left; reflexivity].
  right; eexists; split; [reflexivity|].
  assert (Hlt : (Z.to_nat i < List.length a)%nat)
    by (apply nth_error_Some; congruence).
  rewrite length_app, length_firstn; cbn [List.length].
  rewrite length_skipn; lia.
Qed.

Lemma array_upd_outside : forall (A : Type) (a : list A) i g,
  Z.of_nat (List.length a) <= i -> array_upd a i g = Fault OutOfBounds.
Proof.
  intros A a i g Hi; unfold array_upd.
  rewrite array_get_outside by assumption; reflexivity.
Qed.

Lemma sv_copy_one_cases : forall gsvData i sv,
  sv_copy_one gsvData i sv = Fault OutOfBounds
  \/ exists sv', sv_copy_one gsvData i sv = Ok sv'
                 /\ List.length (sv_list sv') = List.length (sv_list sv).
Proof.
  intros gsvData i sv; unfold sv_copy_one.
  destruct (array_get (SatInfo gsvData) i) as [sat|f] eqn:Hsat;
    [|apply array_get_fault in Hsat; subst; left; reflexivity].
  cbn [bind].
  destruct (array_upd_cases _ (sv_list sv) i
              (fun x => mkGpsSvInfo (nPRN sat) (snr x) (elevation x) (azimuth x)))
    as [H1|[l1 [H1 L1]]]; rewrite H1; cbn [bind]; [left; reflexivity|].
  destruct (array_upd_cases _ l1 i
              (fun x => mkGpsSvInfo (prn x) (nSNR sat) (elevation x) (azimuth x)))
    as [H2|[l2 [H2 L2]]]; rewrite H2; cbn [bind]; [left; reflexivity|].
  destruct (array_upd_cases _ l2 i
              (fun x => mkGpsSvInfo (prn x) (snr x) (dElevation sat) (azimuth x)))
    as [H3|[l3 [H3 L3]]]; rewrite H3; cbn [bind]; [left; reflexivity|].
  destruct (array_upd_cases _ l3 i
              (fun x => mkGpsSvInfo (prn x) (snr x) (elevation x) (dAzimuth sat)))
    as [H4|[l4 [H4 L4]]]; rewrite H4; cbn [bind]; [left; reflexivity|].
  right; eexists; split; [reflexivity|]; cbn; congruence.
Qed.

Lemma sv_copy_one_outside : forall gsvData i sv,
  Z.of_nat (List.length (sv_list sv)) <= i ->
  sv_copy_one gsvData i sv = Fault OutOfBounds.
Proof.
  intros gsvData i sv Hi; unfold sv_copy_one.
  destruct (array_get (SatInfo gsvData) i) as [sat|f] eqn:Hsat;
    [|apply array_get_fault in Hsat; subst; reflexivity].
  cbn [bind]; rewrite array_upd_outside by assumption; reflexivity.
Qed.

Lemma sv_copy_loop_overflow : forall n gsvData i sv,
  i <= Z.of_nat (List.length (sv_list sv)) ->
  Z.of_nat (List.length (sv_list sv)) < i + Z.of_nat n ->
  sv_copy_loop n gsvData i sv = Fault OutOfBounds.
Proof.
  induction n as [|n IH]; intros gsvData i sv Hle Hgt; [lia|].
  cbn [sv_copy_loop].
  destruct (Z.eq_dec i (Z.of_nat (List.length (sv_list sv)))) as [Heq|Hne].
  - rewrite sv_copy_one_outside by lia; reflexivity.
  - destruct (sv_copy_one_cases gsvData i sv) as [H1|[sv' [H1 L1]]];
      rewrite H1; cbn [bind]; [reflexivity|].
    apply IH; rewrite L1; lia.
Qed.

Lemma array_upd_inside : forall (A : Type) (a : list A) k x g,
  nth_error a k = Some x ->
  array_upd a (Z.of_nat k) g = Ok (firstn k a ++ g x :: skipn (S k) a).
Proof.
  intros A a k x g Hx; unfold array_upd, array_get.
  replace (Z.of_nat k <? 0) with false by (symmetry; apply Z.ltb_ge; lia).
  rewrite Nat2Z.id, Hx; reflexivity.
Qed.

Lemma nth_error_set_same : forall (A : Type) (a : list A) k v,
  (k < List.length a)%nat ->
  nth_error (firstn k a ++ v :: skipn (S k) a) k = Some v.
Proof.
  intros A a k v Hk.
  rewrite nth_error_app2 by (rewrite length_firstn; lia).
  rewrite length_firstn; replace (k - Nat.min k (List.length a))%nat with O by lia.
  reflexivity.
Qed.

Lemma nth_error_set_other : forall (A : Type) (a : list A) k v j,
  (k < List.length a)%nat -> j <> k ->
  nth_error (firstn k a ++ v :: skipn (S k) a) j = nth_error a j.
Proof.
  intros A a k v j Hk Hj.
  destruct (Nat.lt_ge_cases j k) as [Hlt|Hge].
  - rewrite nth_error_app1 by (rewrite length_firstn; lia).
    rewrite nth_error_firstn.
    replace (j <? k)%nat with true by (symmetry; apply Nat.ltb_lt; assumption).
    reflexivity.
  - rewrite nth_error_app2 by (rewrite length_firstn; lia).
    rewrite length_firstn; replace (Nat.min k (List.length a)) with k by lia.
    destruct (j - k)%nat as [|d] eqn:Hd; [lia|]; cbn [nth_error].
    rewrite nth_error_skipn; f_equal; lia.
Qed.

Lemma length_set : forall (A : Type) (a : list A) k v,
  (k < List.length a)%nat ->
  List.length (firstn k a ++ v :: skipn (S k) a) = List.length a.
Proof.
  intros A a k v Hk.
  rewrite length_app, length_firstn; cbn [List.length]; rewrite length_skipn; lia.
Qed.

Lemma set_set : forall (A : Type) (a : list A) k v w,
  (k < List.length a)%nat ->
  let b := firstn k a ++ v :: skipn (S k) a in
  firstn k b ++ w :: skipn (S k) b = firstn k a ++ w :: skipn (S k) a.
Proof.
  intros A a k v w Hk b; subst b.
  assert (Hlen : List.length (firstn k a) = k) by (rewrite length_firstn; lia).
  rewrite firstn_app, Hlen, Nat.sub_diag, firstn_O, app_nil_r.
  rewrite firstn_all2 by lia.
  rewrite skipn_app, Hlen.
  rewrite (skipn_all2 (firstn k a)) by lia.
  replace (S k - k)%nat with 1%nat by lia; reflexivity.
Qed.

(** Inside both arrays the loop body replaces entry [k] by the decoded
    satellite [k] and touches nothing else. *)
Lemma sv_copy_one_inside : forall gsvData k sv sat x,
  nth_error (SatInfo gsvData) k = Some sat ->
  nth_error (sv_list sv) k = Some x ->
  sv_copy_one gsvData (Z.of_nat k) sv =
    Ok (mkGpsSvStatus (num_svs sv)
          (firstn k (sv_list sv) ++ sv_of_sat sat :: skipn (S k) (sv_list sv))).
Proof.
  intros gsvData k sv sat x Hsat Hx; unfold sv_copy_one.
  assert (Hget : array_get (SatInfo gsvData) (Z.of_nat k) = Ok sat).
  { unfold array_get.
    replace (Z.of_nat k <? 0) with false by (symmetry; apply Z.ltb_ge; lia).
    rewrite Nat2Z.id, Hsat; reflexivity. }
  assert (Hk : (k < List.length (sv_list sv))%nat)
    by (apply nth_error_Some; congruence).
  rewrite Hget; cbn [bind].
  rewrite (array_upd_inside _ _ k x) by assumption; cbn [bind].
  rewrite (array_upd_inside _ _ k _ _ (nth_error_set_same _ _ k _ Hk)); cbn [bind].
  rewrite set_set by assumption.
  rewrite (array_upd_inside _ _ k _ _ (nth_error_set_same _ _ k _ Hk)); cbn [bind].
  rewrite set_set by assumption.
  rewrite (array_upd_inside _ _ k _ _ (nth_error_set_same _ _ k _ Hk)); cbn [bind].
  rewrite set_set by assumption.
  reflexivity.
Qed.

Lemma sv_copy_loop_inside : forall n gsvData i sv,
  (i + n <= List.length (sv_list sv))%nat ->
  (i + n <= List.length (SatInfo gsvData))%nat ->
  exists sv',
    sv_copy_loop n gsvData (Z.of_nat i) sv = Ok sv'
    /\ num_svs sv' = num_svs sv
    /\ List.length (sv_list sv') = List.length (sv_list sv)
    /\ (forall j, (i <= j < i + n)%nat ->
          nth_error (sv_list sv') j =
            option_map sv_of_sat (nth_error (SatInfo gsvData) j))
    /\ (forall j, (j < i \/ i + n <= j)%nat ->
          nth_error (sv_list sv') j = nth_error (sv_list sv) j).
Proof.
  induction n as [|n IH]; intros gsvData i sv Hsv Hsat; cbn [sv_copy_loop].
  - exists sv; repeat split; intros j Hj; lia.
  - destruct (nth_error (SatInfo gsvData) i) as [sat|] eqn:Esat;
      [|apply nth_error_None in Esat; lia].
    destruct (nth_error (sv_list sv) i) as [x|] eqn:Ex;
      [|apply nth_error_None in Ex; lia].
    assert (Hi : (i < List.length (sv_list sv))%nat) by lia.
    rewrite (sv_copy_one_inside gsvData i sv sat x Esat Ex); cbn [bind].
    replace (Z.of_nat i + 1) with (Z.of_nat (S i)) by lia.
    set (sv1 := mkGpsSvStatus _ _).
    assert (Hlen1 : List.length (sv_list sv1) = List.length (sv_list sv))
      by (subst sv1; cbn [sv_list]; apply length_set; assumption).
    destruct (IH gsvData (S i) sv1) as [sv' [HL [Hnum [Hlen [Hin Hout]]]]];
      [lia|lia|].
    exists sv'; repeat split; [exact HL|exact Hnum|congruence| |].
    + intros j Hj.
      destruct (Nat.eq_dec j i) as [->|Hne].
      * rewrite Hout by lia; subst sv1; cbn [sv_list].
        rewrite nth_error_set_same by assumption; rewrite Esat; reflexivity.
      * apply Hin; lia.
    + intros j Hj; rewrite Hout by lia; subst sv1; cbn [sv_list].
      apply nth_error_set_other; [assumption|lia].
Qed.

(** As long as the announced count fits both arrays, [SetGpsGSV_Data]
    reports that count and the first so many satellites, followed by the
    raw sentence. *)
Lemma SetGpsGSV_Data_in_range : forall e (gsvData : GSV_DATA_T) text (s : ParserNmea),
  0 <= nSatsInView gsvData <= Z.of_nat GPS_MAX_SVS ->
  nSatsInView gsvData <= Z.of_nat (List.length (SatInfo gsvData)) ->
  exists sv,
    SetGpsGSV_Data e gsvData text s =
      Ok (false, sendNmeaUpdates e (Some text) (deliver s (parser_sv_cb sv)))
    /\ num_svs sv = nSatsInView gsvData
    /\ List.length (sv_list sv) = GPS_MAX_SVS
    /\ (forall j, (j < Z.to_nat (nSatsInView gsvData))%nat ->
          nth_error (sv_list sv) j =
            option_map sv_of_sat (nth_error (SatInfo gsvData) j)).
Proof.
  intros e gsvData text s Hcap Hsat; unfold SetGpsGSV_Data.
  cbn [num_svs sv_list GpsSvStatus_zero]; rewrite Z.sub_0_r.
  set (sv0 := mkGpsSvStatus _ _).
  assert (Hlen0 : List.length (sv_list sv0) = GPS_MAX_SVS)
    by (subst sv0; cbn [sv_list]; apply repeat_length).
  destruct (sv_copy_loop_inside (Z.to_nat (nSatsInView gsvData)) gsvData O sv0)
    as [sv [HL [Hnum [Hlen [Hin _]]]]]; [lia|lia|].
  change 0 with (Z.of_nat O); rewrite HL; cbn [bind].
  exists sv; repeat split; [exact Hnum|congruence|].
  intros j Hj; apply Hin; lia.
Qed.

(** C9 (the code at the failing inputs): a GSV record that announces more
    satellites than [sv_list] has slots makes the copy loop of
    [SetGpsGSV_Data] index outside the array; the count is not capped and
    nothing is truncated. *)
Theorem C9_gsv_copy_not_capped : forall e (gsvData : GSV_DATA_T) text (s : ParserNmea),
  Z.of_nat GPS_MAX_SVS < nSatsInView gsvData ->
  SetGpsGSV_Data e gsvData text s = Fault OutOfBounds.
Proof.
  intros e gsvData text s Hmany; unfold SetGpsGSV_Data.
  rewrite sv_copy_loop_overflow; [reflexivity| |]; cbn;
    unfold GpsSvStatus_zero; cbn; rewrite repeat_length; lia.
Qed.

(** ** What a scan changes *)

Lemma enqueue_frame : forall (s s' : ParserNmea) t,
  enqueue s t = Ok s' -> same_but_decoder_and_queue s s'.
Proof.
  intros s s' t; unfold enqueue.
  destruct (mParserThreadPoolObj s); [|discriminate].
  intros H; injection H as <-; repeat split.
Qed.

Lemma enqueue_fault : forall (s : ParserNmea) t f,
  enqueue s t = Fault f -> f = NullDeref.
Proof.
  intros s t f; unfold enqueue.
  destruct (mParserThreadPoolObj s); congruence.
Qed.

Lemma same_but_decoder_and_queue_refl : forall s : ParserNmea,
  same_but_decoder_and_queue s s.
Proof. intros s; repeat split. Qed.

Lemma same_but_decoder_and_queue_trans : forall s1 s2 s3 : ParserNmea,
  same_but_decoder_and_queue s1 s2 ->
  same_but_decoder_and_queue s2 s3 ->
  same_but_decoder_and_queue s1 s3.
Proof.
  unfold same_but_decoder_and_queue; intros s1 s2 s3 H12 H23.
  decompose [and] H12; decompose [and] H23; repeat split; congruence.
Qed.

Lemma same_but_decoder_and_queue_set_base : forall (s : ParserNmea) b,
  same_but_decoder_and_queue s (set_base s b).
Proof. intros s b; repeat split. Qed.

Ltac dispatch_branch get :=
  destruct get as [err rec];
  destruct (err =? ERROR_OK);
  [ match goal with
    | |- context [enqueue ?s ?t] =>
        destruct (enqueue s t) as [s1|f] eqn:Henq; cbn [bind];
        [ left; eexists; split; [reflexivity|];
          eapply same_but_decoder_and_queue_trans;
          [apply same_but_decoder_and_queue_set_base
          |eapply enqueue_frame; exact Henq]
        | right; apply enqueue_fault in Henq; subst; reflexivity ]
    end
  | cbn [bind]; left; eexists; split; [reflexivity|];
    apply same_but_decoder_and_queue_set_base ].

Lemma ProcessRxCommand_frame : forall (s : ParserNmea) pCmd pData checksum,
  (exists s', ProcessRxCommand s pCmd pData checksum = Ok (ERROR_OK, s')
              /\ same_but_decoder_and_queue s s')
  \/ ProcessRxCommand s pCmd pData checksum = Fault NullDeref.
Proof.
  intros s pCmd pData checksum; unfold ProcessRxCommand.
  set (s0 := set_base s (CNMEAParser_ProcessRxCommand (base s) pCmd pData)).
  destruct (strstr pCmd "GPGGA") as [hit|]; [dispatch_branch (GetGPGGA (base s0))|].
  destruct (strstr pCmd "GPGSV") as [hit|]; [dispatch_branch (GetGPGSV (base s0))|].
  destruct (strstr pCmd "GPGSA") as [hit|]; [dispatch_branch (GetGPGSA (base s0))|].
  destruct (strstr pCmd "GPRMC") as [hit|]; [dispatch_branch (GetGPRMC (base s0))|].
  cbn [bind]; left; eexists; split; [reflexivity|].
  apply same_but_decoder_and_queue_set_base.
Qed.

Lemma rx_all_frame : forall cmds (s : ParserNmea),
  (exists s', rx_all cmds s = Ok s' /\ same_but_decoder_and_queue s s')
  \/ rx_all cmds s = Fault NullDeref.
Proof.
  induction cmds as [|[[pCmd pData] checksum] rest IH]; intros s; cbn [rx_all].
  - left; exists s; split; [reflexivity|apply same_but_decoder_and_queue_refl].
  - destruct (ProcessRxCommand_frame s pCmd pData checksum) as [[s1 [H1 F1]]|H1];
      rewrite H1; cbn [bind]; [|right; reflexivity].
    destruct (IH s1) as [[s2 [H2 F2]]|H2]; rewrite H2; [|right; reflexivity].
    left; exists s2; split; [reflexivity|].
    eapply same_but_decoder_and_queue_trans; eassumption.
Qed.

Lemma ProcessNMEABuffer_frame : forall (s : ParserNmea) buf,
  (exists nErr s', ProcessNMEABuffer s buf = Ok (nErr, s')
                   /\ nErr = snd (frames (base s) buf)
                   /\ same_but_decoder_and_queue s s')
  \/ ProcessNMEABuffer s buf = Fault NullDeref.
Proof.
  intros s buf; unfold ProcessNMEABuffer.
  destruct (frames (base s) buf) as [[b cmds] nErr]; cbn [snd].
  destruct (rx_all_frame cmds (set_base s b)) as [[s1 [H1 F1]]|H1];
    rewrite H1; cbn [bind]; [|right; reflexivity].
  left; exists nErr, s1; repeat split; apply F1.
Qed.

Lemma pool_eta : forall p : ParserThreadPool,
  mkPool (nThreads p) (interval p) (pending p ++ []) = p.
Proof. intros [n i q]; cbn; rewrite app_nil_r; reflexivity. Qed.

Ltac queue_branch get p :=
  destruct get as [err rec];
  destruct (err =? ERROR_OK); cbn [bind];
  [ eexists; eexists; split; [reflexivity|]; cbn;
    unfold pool_enqueue; reflexivity
  | eexists; exists []; split; [reflexivity|]; cbn;
    rewrite pool_eta; assumption ].

(** With a queue in place a sentence is dispatched without a fault, and
    the queue only grows at its end. *)
Lemma ProcessRxCommand_queue : forall (s : ParserNmea) pCmd pData checksum p,
  mParserThreadPoolObj s = Some p ->
  exists s' ts,
    ProcessRxCommand s pCmd pData checksum = Ok (ERROR_OK, s')
    /\ mParserThreadPoolObj s' =
         Some (mkPool (nThreads p) (interval p) (pending p ++ ts)).
Proof.
  intros s pCmd pData checksum p Hp; unfold ProcessRxCommand, enqueue.
  cbn [set_base mParserThreadPoolObj]; rewrite Hp.
  destruct (strstr pCmd "GPGGA") as [hit|]; [queue_branch (GetGPGGA (base (set_base s (CNMEAParser_ProcessRxCommand (base s) pCmd pData)))) p|].
  destruct (strstr pCmd "GPGSV") as [hit|]; [queue_branch (GetGPGSV (base (set_base s (CNMEAParser_ProcessRxCommand (base s) pCmd pData)))) p|].
  destruct (strstr pCmd "GPGSA") as [hit|]; [queue_branch (GetGPGSA (base (set_base s (CNMEAParser_ProcessRxCommand (base s) pCmd pData)))) p|].
  destruct (strstr pCmd "GPRMC") as [hit|]; [queue_branch (GetGPRMC (base (set_base s (CNMEAParser_ProcessRxCommand (base s) pCmd pData)))) p|].
  cbn [bind]; eexists; exists []; split; [reflexivity|]; cbn.
  rewrite pool_eta; assumption.
Qed.

Lemma rx_all_queue : forall cmds (s : ParserNmea) p,
  mParserThreadPoolObj s = Some p ->
  exists s' ts,
    rx_all cmds s = Ok s'
    /\ mParserThreadPoolObj s' =
         Some (mkPool (nThreads p) (interval p) (pending p ++ ts)).
Proof.
  induction cmds as [|[[pCmd pData] checksum] rest IH]; intros s p Hp; cbn [rx_all].
  - exists s, []; split; [reflexivity|]; rewrite pool_eta; assumption.
  - destruct (ProcessRxCommand_queue s pCmd pData checksum p Hp) as [s1 [ts1 [H1 Q1]]].
    rewrite H1; cbn [bind].
    destruct (IH s1 _ Q1) as [s2 [ts2 [H2 Q2]]].
    exists s2, (ts1 ++ ts2); split; [assumption|].
    rewrite Q2; cbn; rewrite app_assoc; reflexivity.
Qed.

Lemma ProcessNMEABuffer_queue : forall (s : ParserNmea) buf p,
  mParserThreadPoolObj s = Some p ->
  exists s' ts,
    ProcessNMEABuffer s buf = Ok (snd (frames (base s) buf), s')
    /\ same_but_decoder_and_queue s s'
    /\ mParserThreadPoolObj s' =
         Some (mkPool (nThreads p) (interval p) (pending p ++ ts)).
Proof.
  intros s buf p Hp.
  destruct (ProcessNMEABuffer_frame s buf) as [[nErr [s1 [H1 [E1 F1]]]]|H1].
  - unfold ProcessNMEABuffer in *.
    destruct (frames (base s) buf) as [[b cmds] nErr0]; cbn [snd] in *.
    destruct (rx_all_queue cmds (set_base s b) p Hp) as [s2 [ts [H2 Q2]]].
    rewrite H2 in *; cbn [bind] in *.
    exists s2, ts; repeat split; try assumption.
    all: injection H1 as _ <-; apply F1.
  - unfold ProcessNMEABuffer in *.
    destruct (frames (base s) buf) as [[b cmds] nErr0].
    destruct (rx_all_queue cmds (set_base s b) p Hp) as [s2 [ts [H2 Q2]]].
    rewrite H2 in H1; discriminate.
Qed.

(** ** The read loop *)

Lemma read_loop_S : forall fuel (s : ParserNmea) fp,
  mNmeaFp s = Some fp -> feof fp = false -> mStopParser s = false ->
  read_loop (S fuel) s =
    (let pBuff := fst (fread chunk_bytes fp) in
     let s1 := set_freads (set_mNmeaFp s (Some (snd (fread chunk_bytes fp))))
                 (freads s ++ [(fpos fp, pBuff)]) in
     '(nErr, s2) <- ProcessNMEABuffer s1 pBuff ;;
     if negb (nErr =? ERROR_OK) then Ok (Some false, s2)
     else read_loop fuel
            (set_mSeekOffset s2 (mSeekOffset s2 + Z.of_nat (List.length pBuff)))).
Proof.
  intros fuel s fp Hfp Heof Hstop.
  cbn [read_loop]; rewrite Hfp, Heof, Hstop.
  destruct (fread chunk_bytes fp) as [pBuff fp']; reflexivity.
Qed.

Lemma read_loop_at_eof : forall fuel (s : ParserNmea) fp,
  mNmeaFp s = Some fp -> feof fp = true -> read_loop fuel s = Ok (None, s).
Proof.
  intros fuel s fp Hfp Heof; destruct fuel; cbn [read_loop];
    rewrite Hfp, Heof; reflexivity.
Qed.

Lemma fread_bytes : forall n fp, fst (fread n fp) = firstn n (remaining fp).
Proof. reflexivity. Qed.

Lemma fread_stream : forall n fp,
  snd (fread n fp) =
    mkFILE (fdata fp)
           (fpos fp + Z.of_nat (List.length (firstn n (remaining fp))))
           (feof fp || Nat.ltb (List.length (firstn n (remaining fp))) n).
Proof. reflexivity. Qed.

Lemma chunk_bytes_pos : (0 < chunk_bytes)%nat.
Proof. unfold chunk_bytes; lia. Qed.

Lemma remaining_after_chunk : forall fp n,
  0 <= fpos fp ->
  remaining (mkFILE (fdata fp) (fpos fp + Z.of_nat n) false) =
    skipn n (remaining fp).
Proof.
  intros fp n Hpos; unfold remaining; cbn [fdata fpos].
  rewrite skipn_skipn.
  replace (Z.to_nat (fpos fp + Z.of_nat n)) with (n + Z.to_nat (fpos fp))%nat by lia.
  reflexivity.
Qed.

(** A read pass with a well-behaved decoder runs to the end of the file:
    it reads what was left of the stream, chunk by chunk from the stream
    position on, and advances the read offset by the bytes read. *)
Lemma read_loop_to_eof : forall fuel (s : ParserNmea) fp p,
  decoder_never_fails ->
  mNmeaFp s = Some fp -> feof fp = false -> 0 <= fpos fp ->
  mStopParser s = false ->
  mParserThreadPoolObj s = Some p ->
  (List.length (remaining fp) < fuel)%nat ->
  exists s' first log ts,
    read_loop fuel s = Ok (None, s')
    /\ mNmeaFp s' =
         Some (mkFILE (fdata fp)
                 (fpos fp + Z.of_nat (List.length (remaining fp))) true)
    /\ mSeekOffset s' = mSeekOffset s + Z.of_nat (List.length (remaining fp))
    /\ mStopParser s' = false
    /\ mParserThreadPoolObj s' =
         Some (mkPool (nThreads p) (interval p) (pending p ++ ts))
    /\ mGpsData s' = mGpsData s
    /\ watch s' = watch s
    /\ delivered s' = delivered s
    /\ clock_reads s' = clock_reads s
    /\ freads s' = freads s ++ (fpos fp, first) :: log
    /\ first ++ List.concat (map snd log) = remaining fp.
Proof.
  induction fuel as [|fuel IH]; intros s fp p Hok Hfp Heof Hpos Hstop Hpool Hfuel;
    [lia|].
  rewrite (read_loop_S fuel s fp Hfp Heof Hstop); cbv zeta.
  rewrite fread_bytes, fread_stream, Heof; cbn [orb].
  set (pBuff := firstn chunk_bytes (remaining fp)).
  set (s1 := set_freads _ _).
  assert (Hpool1 : mParserThreadPoolObj s1 = Some p) by exact Hpool.
  destruct (ProcessNMEABuffer_queue s1 pBuff p Hpool1) as [s2 [ts [H2 [F2 Q2]]]].
  rewrite H2, Hok; cbn [bind negb Z.eqb ERROR_OK].
  destruct F2 as [Ffp [Foff [Fstop [Fgps [Fwatch [Fdel [Fclk Flog]]]]]]].
  cbn [s1 set_freads set_mNmeaFp mNmeaFp mSeekOffset mStopParser mGpsData
       watch delivered clock_reads freads] in Ffp, Foff, Fstop, Fgps, Fwatch,
       Fdel, Fclk, Flog.
  set (s3 := set_mSeekOffset s2 _).
  destruct (Nat.ltb (List.length pBuff) chunk_bytes) eqn:Hshort.
  - (* the last chunk: fewer bytes than asked for *)
    apply Nat.ltb_lt in Hshort.
    assert (Hall : pBuff = remaining fp).
    { subst pBuff; apply firstn_all2.
      rewrite length_firstn in Hshort; lia. }
    exists s3, pBuff, [], ts.
    split; [apply read_loop_at_eof with (fp := mkFILE (fdata fp) (fpos fp + Z.of_nat (List.length pBuff)) true);
            [exact Ffp|reflexivity]|].
    subst s3; cbn [set_mSeekOffset mNmeaFp mSeekOffset mStopParser
                   mParserThreadPoolObj mGpsData watch delivered clock_reads
                   freads].
    rewrite Ffp, Foff, Fstop, Fgps, Fwatch, Fdel, Fclk, Flog, Q2, Hstop, <- Hall.
    cbn [map List.concat]; rewrite app_nil_r; repeat split.
  - (* a full chunk: the loop goes on *)
    apply Nat.ltb_ge in Hshort.
    assert (Hlen : List.length pBuff = chunk_bytes).
    { subst pBuff; rewrite length_firstn in *; lia. }
    assert (Hrem : (chunk_bytes <= List.length (remaining fp))%nat).
    { subst pBuff; rewrite length_firstn in Hlen; lia. }
    pose proof chunk_bytes_pos as Hchunk.
    set (fp' := mkFILE (fdata fp) (fpos fp + Z.of_nat (List.length pBuff)) false) in *.
    assert (Hrem' : remaining fp' = skipn chunk_bytes (remaining fp)).
    { subst fp'; rewrite Hlen; apply remaining_after_chunk; assumption. }
    destruct (IH s3 fp' (mkPool (nThreads p) (interval p) (pending p ++ ts)) Hok)
      as [s' [first [log [ts' [HL [Rfp [Roff [Rstop [Rpool [Rgps [Rwatch
          [Rdel [Rclk [Rlog Rcat]]]]]]]]]]]]]].
    + exact Ffp.
    + reflexivity.
    + subst fp'; cbn [fpos]; lia.
    + subst s3; cbn; rewrite Fstop; exact Hstop.
    + exact Q2.
    + rewrite Hrem', length_skipn; lia.
    + exists s', pBuff, ((fpos fp', first) :: log), (ts ++ ts').
      split; [exact HL|].
      rewrite Rfp, Roff, Rstop, Rpool, Rgps, Rwatch, Rdel, Rclk, Rlog.
      subst s3; cbn [set_mSeekOffset mNmeaFp mSeekOffset mStopParser
                     mParserThreadPoolObj mGpsData watch delivered
                     clock_reads freads nThreads interval pending fdata fpos].
      rewrite Foff, Fgps, Fwatch, Fdel, Fclk, Flog, Hrem', length_skipn.
      rewrite <- app_assoc; cbn [app map List.concat snd].
      rewrite Rcat, Hrem', <- app_assoc.
      subst pBuff fp'; cbn [fpos]; rewrite Hlen.
      rewrite firstn_skipn.
      repeat split; try reflexivity.
      * do 2 f_equal; lia.
      * lia.
Qed.

(** ** A whole call of [startParsing] *)

Lemma startParsing_unfold : forall e (s : ParserNmea) data keyfile,
  nmea_file e = Some data ->
  config_file e = Some keyfile ->
  0 <= mSeekOffset s ->
  startParsing e s =
    (let s0 := SetGpsStatus NYX_GPS_STATUS_SESSION_BEGIN
                 (init (set_mNmeaFp s (Some (mkFILE data (mSeekOffset s) false)))) in
     let s1 := match mParserThreadPoolObj s with
               | None => set_mParserThreadPoolObj s0
                           (Some (mkPool 1 (session_interval keyfile) []))
               | Some _ => s0
               end in
     '(r, s2) <- read_loop (S (List.length data)) s1 ;;
     match r with
     | Some b => Ok (b, s2)
     | None =>
         Ok (false,
             parser_inotify_register
               match mNmeaFp s2 with
               | Some _ => set_mNmeaFp s2 None
               | None => s2
               end)
     end).
Proof.
  intros e [b fp off stop pool d w out n log] data keyfile Hfile Hcfg Hoff.
  unfold startParsing, gps_config_load_file; rewrite Hfile, Hcfg.
  cbn [mSeekOffset] in Hoff.
  unfold session_interval, SetGpsStatus, init, deliver, fopen, loop_fuel, fseek.
  destruct pool as [p|];
    cbn [set_mNmeaFp set_mGpsData set_delivered set_mParserThreadPoolObj
         mNmeaFp mSeekOffset mParserThreadPoolObj base mStopParser mGpsData
         watch delivered clock_reads freads fdata];
    destruct (Z.eqb_spec off 0) as [->|Hne];
    cbn [set_mNmeaFp mNmeaFp mSeekOffset mParserThreadPoolObj base mStopParser
         mGpsData watch delivered clock_reads freads fdata];
    try reflexivity.
  all: replace (off <? 0) with false by (symmetry; apply Z.ltb_ge; lia).
  all: reflexivity.
Qed.

(** With file and configuration present, no stop pending and a decoder
    that reports no error, [startParsing] re-opens the file, runs [init],
    reports SessionBegin, keeps or builds the queue, reads from the read
    offset to the end of the file, registers the watch and returns
    false. *)
Lemma startParsing_pass : forall e (s : ParserNmea) data keyfile,
  decoder_never_fails ->
  nmea_file e = Some data ->
  config_file e = Some keyfile ->
  mStopParser s = false ->
  0 <= mSeekOffset s ->
  exists s' first log ts,
    startParsing e s = Ok (false, s')
    /\ mNmeaFp s' = None
    /\ mSeekOffset s' =
         mSeekOffset s
         + Z.of_nat (List.length (skipn (Z.to_nat (mSeekOffset s)) data))
    /\ mStopParser s' = false
    /\ mParserThreadPoolObj s' =
         match mParserThreadPoolObj s with
         | Some p => Some (mkPool (nThreads p) (interval p) (pending p ++ ts))
         | None => Some (mkPool 1 (session_interval keyfile) ts)
         end
    /\ mGpsData s' = mGpsData (init s)
    /\ watch s' = true
    /\ delivered s' = delivered s ++ [SessionBegin]
    /\ clock_reads s' = clock_reads s
    /\ freads s' = freads s ++ (mSeekOffset s, first) :: log
    /\ first ++ List.concat (map snd log) = skipn (Z.to_nat (mSeekOffset s)) data.
Proof.
  intros e s data keyfile Hok Hfile Hcfg Hstop Hoff.
  rewrite (startParsing_unfold e s data keyfile Hfile Hcfg Hoff); cbv zeta.
  set (fp := mkFILE data (mSeekOffset s) false).
  set (s1 := match mParserThreadPoolObj s with
             | None => _
             | Some _ => _
             end).
  set (p1 := match mParserThreadPoolObj s with
             | Some p => p
             | None => mkPool 1 (session_interval keyfile) []
             end).
  assert (Hfp : mNmeaFp s1 = Some fp)
    by (subst s1; destruct (mParserThreadPoolObj s); reflexivity).
  assert (Hst : mStopParser s1 = false)
    by (subst s1; destruct (mParserThreadPoolObj s); exact Hstop).
  assert (Hp1 : mParserThreadPoolObj s1 = Some p1)
    by (subst s1 p1; destruct (mParserThreadPoolObj s) eqn:Hp;
        [exact Hp|reflexivity]).
  assert (Hrest : forall (X : Type) (f : ParserNmea -> X),
             (forall s0 v, f (set_mParserThreadPoolObj s0 v) = f s0) ->
             f s1 = f (SetGpsStatus NYX_GPS_STATUS_SESSION_BEGIN
                         (init (set_mNmeaFp s (Some fp)))))
    by (intros X f Hf; subst s1; destruct (mParserThreadPoolObj s);
        [reflexivity|apply Hf]).
  assert (Hfuel : (List.length (remaining fp) < S (List.length data))%nat)
    by (unfold remaining; subst fp; cbn [fdata fpos]; rewrite length_skipn; lia).
  destruct (read_loop_to_eof _ s1 fp p1 Hok Hfp eq_refl Hoff Hst Hp1 Hfuel)
    as [s2 [first [log [ts [HL [Rfp [Roff [Rstop [Rpool [Rgps [Rwatch
        [Rdel [Rclk [Rlog Rcat]]]]]]]]]]]]]].
  rewrite HL; cbn [bind]; rewrite Rfp.
  exists (parser_inotify_register (set_mNmeaFp s2 None)), first, log, ts.
  split; [reflexivity|].
  cbn [parser_inotify_register set_watch set_mNmeaFp mNmeaFp mSeekOffset
       mStopParser mParserThreadPoolObj mGpsData watch delivered clock_reads
       freads].
  rewrite Roff, Rstop, Rpool, Rgps, Rdel, Rclk, Rlog.
  rewrite (Hrest _ mSeekOffset), (Hrest _ mGpsData), (Hrest _ delivered),
          (Hrest _ clock_reads), (Hrest _ freads) by reflexivity.
  unfold remaining in *; subst fp p1; cbn [fdata fpos] in *.
  repeat split; try assumption.
  destruct (mParserThreadPoolObj s); reflexivity.
Qed.

(** Reduce the setters and projections of the parser record. *)
Ltac fields :=
  cbn [set_base set_mNmeaFp set_mSeekOffset set_mStopParser
       set_mParserThreadPoolObj set_mGpsData set_watch set_delivered
       set_clock_reads set_freads base mNmeaFp mSeekOffset mStopParser
       mParserThreadPoolObj mGpsData watch delivered clock_reads freads
       fdata fpos feof] in *.

(** The fuel [startParsing] gives its loop always suffices. *)
Lemma read_loop_fuel_suffices : forall fuel (s : ParserNmea),
  (forall fp, mNmeaFp s = Some fp -> feof fp = false ->
              0 <= fpos fp /\ (List.length (remaining fp) < fuel)%nat) ->
  read_loop fuel s <> Fault FuelExhausted.
Proof.
  induction fuel as [|fuel IH]; intros s Hinv.
  - cbn [read_loop].
    destruct (mNmeaFp s) as [fp|] eqn:Hfp; [|discriminate].
    destruct (feof fp) eqn:Heof; [discriminate|].
    destruct (Hinv fp eq_refl Heof); lia.
  - destruct (mNmeaFp s) as [fp|] eqn:Hfp;
      [|cbn [read_loop]; rewrite Hfp; discriminate].
    destruct (feof fp) eqn:Heof;
      [rewrite (read_loop_at_eof _ s fp Hfp Heof); discriminate|].
    destruct (mStopParser s) eqn:Hstop;
      [cbn [read_loop]; rewrite Hfp, Heof, Hstop; discriminate|].
    destruct (Hinv fp eq_refl Heof) as [Hpos Hlen].
    rewrite (read_loop_S fuel s fp Hfp Heof Hstop); cbv zeta.
    rewrite fread_bytes, fread_stream, Heof; cbn [orb].
    set (pBuff := firstn chunk_bytes (remaining fp)).
    set (s1 := set_freads _ _).
    destruct (ProcessNMEABuffer_frame s1 pBuff) as [[nErr [s2 [H2 [_ F2]]]]|H2];
      rewrite H2; cbn [bind]; [|discriminate].
    destruct (negb (nErr =? ERROR_OK)); [discriminate|].
    apply IH; intros fp' Hfp' Heof'.
    destruct F2 as [Ffp _].
    cbn [set_mSeekOffset mNmeaFp] in Hfp'; rewrite Ffp in Hfp'.
    injection Hfp' as <-; cbn [feof] in Heof'.
    apply Nat.ltb_ge in Heof'.
    pose proof chunk_bytes_pos as Hchunk.
    assert (Hfull : List.length pBuff = chunk_bytes)
      by (subst pBuff; rewrite length_firstn in *; lia).
    assert (Hrem : (chunk_bytes <= List.length (remaining fp))%nat)
      by (subst pBuff; rewrite length_firstn in Hfull; lia).
    cbn [fpos]; split; [lia|].
    rewrite Hfull, remaining_after_chunk, length_skipn by assumption; lia.
Qed.

(** The fuel the model gives the loop is enough on the streams modelled,
    whose reads succeed: each pass reads a full chunk or reaches the end
    of the file. *)
Lemma startParsing_fuel_suffices : forall e (s : ParserNmea),
  startParsing e s <> Fault FuelExhausted.
Proof.
  intros e [b fp off stop pool d w out n log]; unfold startParsing.
  destruct (nmea_file e) as [data|]; [|discriminate].
  cbn [fopen set_mNmeaFp mNmeaFp].
  destruct (gps_config_load_file e) as [keyfile|]; [|discriminate].
  match goal with
  | |- bind (read_loop ?f ?s) _ <> _ =>
      pose proof (read_loop_fuel_suffices f s) as Hloop;
      destruct (read_loop f s) as [[[r|] s2]|f'] eqn:HL; cbn [bind];
      [discriminate|discriminate|]
  end.
  intros Hf; injection Hf as ->; apply Hloop; [|reflexivity].
  intros fp' Hfp' Heof'; clear Hloop HL.
  unfold loop_fuel, SetGpsStatus, init, deliver, fseek in *.
  destruct pool as [p|]; fields;
    destruct (off =? 0); fields;
    try (destruct (off <? 0) eqn:Hneg; [|apply Z.ltb_ge in Hneg]; fields);
    injection Hfp' as <-; unfold remaining; cbn [fdata fpos];
    rewrite length_skipn; split; lia.
Qed.

(** ** The read offset *)

Lemma handler_accepts_tracked_file :
  negb (strlen nmea_file_name =? strlen nmea_file_name)
  || negb (strncmp nmea_file_name nmea_file_name (String.length nmea_file_name) =? 0)
  = false.
Proof. reflexivity. Qed.

(** One iteration of the loop on a chunk the decoder accepts: the chunk
    is read at the stream position and the read offset grows by its
    length before the next iteration. *)
Lemma read_loop_chunk_advance : forall fuel (s : ParserNmea) fp p,
  decoder_never_fails ->
  mNmeaFp s = Some fp -> feof fp = false -> mStopParser s = false ->
  mParserThreadPoolObj s = Some p ->
  exists s1,
    read_loop (S fuel) s = read_loop fuel s1
    /\ mSeekOffset s1 =
         mSeekOffset s + Z.of_nat (List.length (fst (fread chunk_bytes fp)))
    /\ freads s1 = freads s ++ [(fpos fp, fst (fread chunk_bytes fp))]
    /\ mNmeaFp s1 = Some (snd (fread chunk_bytes fp)).
Proof.
  intros fuel s fp p Hok Hfp Heof Hstop Hpool.
  rewrite (read_loop_S fuel s fp Hfp Heof Hstop); cbv zeta.
  set (pBuff := fst (fread chunk_bytes fp)).
  set (s1 := set_freads _ _).
  destruct (ProcessNMEABuffer_queue s1 pBuff p Hpool) as [s2 [ts [H2 [F2 Q2]]]].
  rewrite H2, Hok; cbn [bind negb Z.eqb ERROR_OK].
  destruct F2 as [Ffp [Foff [_ [_ [_ [_ [_ Flog]]]]]]].
  eexists; split; [reflexivity|].
  cbn [set_mSeekOffset mSeekOffset freads mNmeaFp].
  rewrite Foff, Flog, Ffp; repeat split.
Qed.

(** The read offset in the regular life cycle.  [stopParsing] resets it
    to 0; every chunk of a read pass that the decoder accepts advances it
    by the bytes read.  So for a session that waits at offset [n] after a
    read pass, with a decoder that reports no error: stopping and
    starting again reads the file anew from byte 0 to its end, while the
    resume triggered by a change notification for the tracked file reads
    from byte [n] on, that is exactly what lies behind the offset it
    kept. *)
Lemma offset_reset_and_resume :
  forall e (s : ParserNmea) data keyfile p (n : nat) (event : inotify_event),
  decoder_never_fails ->
  nmea_file e = Some data ->
  config_file e = Some keyfile ->
  awaiting_notification s p ->
  mSeekOffset s = Z.of_nat n ->
  Z.land (mask event) (Z.lor IN_MODIFY IN_MOVED_TO) <> 0 ->
  mSeekOffset (snd (stopParsing s)) = 0
  /\ (forall fuel (s0 : ParserNmea) fp p0,
        mNmeaFp s0 = Some fp -> feof fp = false -> mStopParser s0 = false ->
        mParserThreadPoolObj s0 = Some p0 ->
        exists s1,
          read_loop (S fuel) s0 = read_loop fuel s1
          /\ mSeekOffset s1 =
               mSeekOffset s0 + Z.of_nat (List.length (fst (fread chunk_bytes fp)))
          /\ freads s1 = freads s0 ++ [(fpos fp, fst (fread chunk_bytes fp))])
  /\ (exists s' first log,
        startParsing e (snd (stopParsing s)) = Ok (false, s')
        /\ freads s' = freads s ++ (0, first) :: log
        /\ first ++ List.concat (map snd log) = data
        /\ mSeekOffset s' = Z.of_nat (List.length data))
  /\ (exists s' first log,
        parser_inotify_handler e event (Some nmea_file_name) s = Ok s'
        /\ freads s' = freads s ++ (Z.of_nat n, first) :: log
        /\ first ++ List.concat (map snd log) = skipn n data
        /\ mSeekOffset s' = Z.of_nat n + Z.of_nat (List.length (skipn n data))).
Proof.
  intros e s data keyfile p n event Hok Hfile Hcfg
         [Hfp [Hwatch [Hstop [Hpool Hoff]]]] Hn Hmask.
  split; [|split; [|split]].
  - destruct s; unfold stopParsing; fields.
    destruct mParserThreadPoolObj0, mNmeaFp0; reflexivity.
  - intros fuel s0 fp p0 Hfp0 Heof0 Hstop0 Hpool0.
    destruct (read_loop_chunk_advance fuel s0 fp p0 Hok Hfp0 Heof0 Hstop0 Hpool0)
      as [s1 [HL [Roff [Rlog _]]]].
    exists s1; repeat split; assumption.
  - assert (Hs : snd (stopParsing s) =
                 deinit (SetGpsStatus NYX_GPS_STATUS_SESSION_END
                           (set_mParserThreadPoolObj
                              (parser_inotify_unregister (set_mSeekOffset s 0))
                              None))).
    { unfold stopParsing; cbn [snd].
      unfold parser_inotify_unregister; fields; rewrite Hpool; fields.
      rewrite Hfp; reflexivity. }
    rewrite Hs.
    set (s0 := deinit _).
    destruct (startParsing_pass e s0 data keyfile Hok Hfile Hcfg)
      as [s' [first [log [ts [HS [_ [Roff [_ [_ [_ [_ [_ [_ [Rlog Rcat]]]]]]]]]]]]]].
    + exact Hstop.
    + cbn; lia.
    + exists s', first, log; repeat split; assumption.
  - unfold parser_inotify_handler.
    rewrite handler_accepts_tracked_file.
    destruct (Z.eqb_spec (Z.land (mask event) (Z.lor IN_MODIFY IN_MOVED_TO)) 0)
      as [Hz|_]; [contradiction|]; cbn [negb].
    destruct (startParsing_pass e (parser_inotify_unregister s) data keyfile
                Hok Hfile Hcfg)
      as [s' [first [log [ts [HS [_ [Roff [_ [_ [_ [_ [_ [_ [Rlog Rcat]]]]]]]]]]]]]].
    + exact Hstop.
    + exact Hoff.
    + rewrite HS; cbn [bind].
      cbn [parser_inotify_unregister set_watch mSeekOffset freads] in Roff, Rlog, Rcat.
      rewrite Hn, Nat2Z.id in *.
      exists s', first, log; repeat split; assumption.
Qed.

End Properties.

(** * Further properties of the parser *)

Section Further.

Context {P : CNMEAParser} {K : Constants}.

Ltac record_fields :=
  cbn [set_base set_mNmeaFp set_mSeekOffset set_mStopParser
       set_mParserThreadPoolObj set_mGpsData set_watch set_delivered
       set_clock_reads set_freads base mNmeaFp mSeekOffset mStopParser
       mParserThreadPoolObj mGpsData watch delivered clock_reads freads
       fdata fpos feof] in *.

(** ** The read loop, whatever the decoder answers *)

Lemma bytes_of_cons : forall pos c log,
  bytes_of ((pos, c) :: log) = Z.of_nat (List.length c) + bytes_of log.
Proof.
  intros pos c log; unfold bytes_of; cbn [map List.concat snd].
  rewrite length_app; lia.
Qed.

Lemma chunked_cons_full : forall pos c log,
  List.length c = chunk_bytes -> chunked log -> chunked ((pos, c) :: log).
Proof.
  intros pos c log Hc Hlog; cbn [chunked].
  destruct log; [lia|split; assumption].
Qed.

(** One pass of the loop from an open stream with no stop pending and a
    queue in place: it never faults and never returns true; it ends
    either at the end of the file, the read offset advanced by all that
    was left, or at the first chunk the decoder rejects, the read offset
    advanced by the chunks before it.  The reads are contiguous chunks
    from the stream position on. *)
Lemma read_loop_general : forall fuel (s : ParserNmea) fp p,
  mNmeaFp s = Some fp -> feof fp = false -> 0 <= fpos fp ->
  mStopParser s = false ->
  mParserThreadPoolObj s = Some p ->
  (List.length (remaining fp) < fuel)%nat ->
  exists r s' fp' log ts,
    read_loop fuel s = Ok (r, s')
    /\ mNmeaFp s' = Some fp'
    /\ mStopParser s' = false
    /\ mParserThreadPoolObj s' =
         Some (mkPool (nThreads p) (interval p) (pending p ++ ts))
    /\ (mGpsData s' = mGpsData s /\ watch s' = watch s
        /\ delivered s' = delivered s /\ clock_reads s' = clock_reads s)
    /\ freads s' = freads s ++ log
    /\ contiguous (fpos fp) log
    /\ chunked log
    /\ bytes_of log <= Z.of_nat (List.length (remaining fp))
    /\ ((r = None
         /\ feof fp' = true
         /\ List.concat (map snd log) = remaining fp
         /\ List.length log = S (List.length (remaining fp) / chunk_bytes)
         /\ mSeekOffset s' = mSeekOffset s + Z.of_nat (List.length (remaining fp)))
        \/ (r = Some false
            /\ exists log0 chunk b,
                 log = log0 ++ [(fpos fp + bytes_of log0, chunk)]
                 /\ snd (frames b chunk) <> ERROR_OK
                 /\ mSeekOffset s' = mSeekOffset s + bytes_of log0
                 /\ fpos fp' = fpos fp + bytes_of log0 + Z.of_nat (List.length chunk))).
Proof.
  induction fuel as [|fuel IH]; intros s fp p Hfp Heof Hpos Hstop Hpool Hfuel;
    [lia|].
  rewrite (read_loop_S fuel s fp Hfp Heof Hstop); cbv zeta.
  rewrite fread_bytes, fread_stream, Heof; cbn [orb].
  set (pBuff := firstn chunk_bytes (remaining fp)).
  set (s1 := set_freads _ _).
  assert (Hpool1 : mParserThreadPoolObj s1 = Some p) by exact Hpool.
  destruct (ProcessNMEABuffer_queue s1 pBuff p Hpool1) as [s2 [ts [H2 [F2 Q2]]]].
  rewrite H2; cbn [bind].
  destruct F2 as [Ffp [Foff [Fstop [Fgps [Fwatch [Fdel [Fclk Flog]]]]]]].
  cbn [s1 set_freads set_mNmeaFp mNmeaFp mSeekOffset mStopParser mGpsData
       watch delivered clock_reads freads] in Ffp, Foff, Fstop, Fgps, Fwatch,
       Fdel, Fclk, Flog.
  assert (Hle : (List.length pBuff <= chunk_bytes)%nat)
    by (subst pBuff; rewrite length_firstn; lia).
  destruct (Z.eqb_spec (snd (frames (base s1) pBuff)) ERROR_OK) as [Hgood|Hbad];
    cbn [negb].
  - (* the chunk is accepted *)
    set (s3 := set_mSeekOffset s2 _).
    destruct (Nat.ltb (List.length pBuff) chunk_bytes) eqn:Hshort.
    + apply Nat.ltb_lt in Hshort.
      assert (Hall : pBuff = remaining fp).
      { subst pBuff; apply firstn_all2.
        rewrite length_firstn in Hshort; lia. }
      exists None, s3, (mkFILE (fdata fp) (fpos fp + Z.of_nat (List.length pBuff)) true),
             [(fpos fp, pBuff)], ts.
      split; [apply read_loop_at_eof
                with (fp := mkFILE (fdata fp) (fpos fp + Z.of_nat (List.length pBuff)) true);
              [exact Ffp|reflexivity]|].
      subst s3; record_fields.
      rewrite Foff, Fstop, Fgps, Fwatch, Fdel, Fclk, Flog, Q2, Hstop.
      repeat split; try assumption.
      { unfold bytes_of; cbn [map List.concat snd]; rewrite app_nil_r, Hall; lia. }
      left; cbn [map List.concat snd List.length]; rewrite app_nil_r, <- Hall.
      repeat split.
      rewrite Nat.div_small by assumption; reflexivity.
    + apply Nat.ltb_ge in Hshort.
      assert (Hlen : List.length pBuff = chunk_bytes) by lia.
      assert (Hrem : (chunk_bytes <= List.length (remaining fp))%nat)
        by (subst pBuff; rewrite length_firstn in Hlen; lia).
      pose proof chunk_bytes_pos as Hchunk.
      set (fp1 := mkFILE (fdata fp) (fpos fp + Z.of_nat (List.length pBuff)) false) in *.
      assert (Hrem1 : remaining fp1 = skipn chunk_bytes (remaining fp))
        by (subst fp1; rewrite Hlen; apply remaining_after_chunk; assumption).
      destruct (IH s3 fp1 (mkPool (nThreads p) (interval p) (pending p ++ ts)))
        as (r & s' & fp' & log & ts' & HL & Rfp & Rstop & Rpool
            & (Rgps & Rwatch & Rdel & Rclk) & Rlog & Rcont & Rchunk & Rbytes
            & Rend).
      * exact Ffp.
      * reflexivity.
      * subst fp1; cbn [fpos]; lia.
      * subst s3; cbn; rewrite Fstop; exact Hstop.
      * exact Q2.
      * rewrite Hrem1, length_skipn; lia.
      * exists r, s', fp', ((fpos fp, pBuff) :: log), (ts ++ ts').
        split; [exact HL|].
        subst s3; record_fields.
        rewrite Rstop, Rpool, Rgps, Rwatch, Rdel, Rclk, Rlog.
        cbn [nThreads interval pending].
        rewrite Fgps, Fwatch, Fdel, Fclk, Flog, <- !app_assoc.
        cbn [app contiguous].
        repeat split; try assumption.
        -- apply chunked_cons_full; assumption.
        -- rewrite bytes_of_cons; rewrite Hrem1, length_skipn in Rbytes; lia.
        -- destruct Rend as [[Hr [Reof [Rcat [Rcount Roff]]]]
                            |[Hr [log0 [chunk [b [Hlog [Herr [Roff Rpos]]]]]]]].
           ++ left; repeat split; try assumption.
              ** cbn [map List.concat snd]; rewrite Rcat, Hrem1.
                 subst pBuff; apply firstn_skipn.
              ** cbn [List.length]; rewrite Rcount, Hrem1, length_skipn.
                 f_equal.
                 replace (List.length (remaining fp))
                   with ((List.length (remaining fp) - chunk_bytes) + 1 * chunk_bytes)%nat
                   at 2 by lia.
                 rewrite Nat.div_add by lia; lia.
              ** rewrite Roff; cbn [set_mSeekOffset mSeekOffset].
                 rewrite Foff, Hrem1, length_skipn; lia.
           ++ right; split; [assumption|].
              exists ((fpos fp, pBuff) :: log0), chunk, b.
              subst fp1; cbn [set_mSeekOffset mSeekOffset fpos] in Roff, Rpos, Hlog.
              rewrite bytes_of_cons.
              repeat split; try assumption.
              ** rewrite Hlog; cbn [app]; do 4 f_equal; lia.
              ** rewrite Roff, Foff; lia.
              ** rewrite Rpos; lia.
  - (* the chunk is rejected *)
    exists (Some false), s2,
           (mkFILE (fdata fp) (fpos fp + Z.of_nat (List.length pBuff))
                   (Nat.ltb (List.length pBuff) chunk_bytes)),
           [(fpos fp, pBuff)], ts.
    split; [reflexivity|].
    rewrite Foff, Fstop, Fgps, Fwatch, Fdel, Fclk, Flog, Q2, Hstop.
    repeat split; try assumption.
    { unfold bytes_of; cbn [map List.concat snd]; rewrite app_nil_r.
      subst pBuff; rewrite length_firstn; lia. }
    right; split; [reflexivity|].
    exists [], pBuff, (base s1).
    unfold bytes_of; cbn [map List.concat List.length app fpos].
    repeat split; try assumption.
    + do 2 f_equal; lia.
    + lia.
    + lia.
Qed.

(** ** A whole call of [startParsing], whatever the state *)

Lemma startParsing_unfold_any : forall e (s : ParserNmea) data keyfile,
  nmea_file e = Some data ->
  config_file e = Some keyfile ->
  startParsing e s =
    (let s0 := SetGpsStatus NYX_GPS_STATUS_SESSION_BEGIN
                 (init (set_mNmeaFp s
                          (Some (mkFILE data (Z.max 0 (mSeekOffset s)) false)))) in
     let s1 := match mParserThreadPoolObj s with
               | None => set_mParserThreadPoolObj s0
                           (Some (mkPool 1 (session_interval keyfile) []))
               | Some _ => s0
               end in
     '(r, s2) <- read_loop (S (List.length data)) s1 ;;
     match r with
     | Some b => Ok (b, s2)
     | None =>
         Ok (false,
             parser_inotify_register
               match mNmeaFp s2 with
               | Some _ => set_mNmeaFp s2 None
               | None => s2
               end)
     end).
Proof.
  intros e [b fp off stop pool d w out n log] data keyfile Hfile Hcfg.
  unfold startParsing, gps_config_load_file; rewrite Hfile, Hcfg.
  unfold session_interval, SetGpsStatus, init, deliver, fopen, loop_fuel, fseek.
  destruct pool as [p|]; record_fields;
    destruct (Z.eqb_spec off 0) as [->|Hne]; record_fields;
    try reflexivity.
  all: destruct (Z.ltb_spec off 0) as [Hneg|Hnn]; record_fields.
  all: try (replace (Z.max 0 off) with 0 by lia; reflexivity).
  all: replace (Z.max 0 off) with off by lia; reflexivity.
Qed.

Lemma read_loop_stop : forall fuel (s : ParserNmea) fp,
  mNmeaFp s = Some fp -> feof fp = false -> mStopParser s = true ->
  read_loop (S fuel) s = Ok (Some true, set_mNmeaFp (set_mStopParser s false) None).
Proof.
  intros fuel s fp Hfp Heof Hstop; cbn [read_loop].
  rewrite Hfp, Heof, Hstop; reflexivity.
Qed.

(** The state [startParsing] enters its loop with. *)
Lemma loop_entry_state : forall (s : ParserNmea) data keyfile,
  let fp := mkFILE data (Z.max 0 (mSeekOffset s)) false in
  let s0 := SetGpsStatus NYX_GPS_STATUS_SESSION_BEGIN
              (init (set_mNmeaFp s (Some fp))) in
  let s1 := match mParserThreadPoolObj s with
            | None => set_mParserThreadPoolObj s0
                        (Some (mkPool 1 (session_interval keyfile) []))
            | Some _ => s0
            end in
  mNmeaFp s1 = Some fp
  /\ mStopParser s1 = mStopParser s
  /\ mSeekOffset s1 = mSeekOffset s
  /\ mGpsData s1 = mGpsData (init s)
  /\ watch s1 = watch s
  /\ delivered s1 = delivered s ++ [SessionBegin]
  /\ clock_reads s1 = clock_reads s
  /\ freads s1 = freads s
  /\ mParserThreadPoolObj s1 =
       Some match mParserThreadPoolObj s with
            | Some p => p
            | None => mkPool 1 (session_interval keyfile) []
            end.
Proof.
  intros s data keyfile fp s0 s1; subst s1 s0.
  destruct s as [b fp0 off stop pool d w out n log]; record_fields.
  destruct pool; repeat split.
Qed.

(** With file and configuration present and no stop pending, a call
    returns false in one of two ways: after the end of the file, the
    handle closed and the watch registered, or at a chunk the decoder
    rejects, the handle left open and the watch as it was. *)
Lemma startParsing_pass_general : forall e (s : ParserNmea) data keyfile,
  nmea_file e = Some data ->
  config_file e = Some keyfile ->
  mStopParser s = false ->
  exists s' log ts,
    startParsing e s = Ok (false, s')
    /\ mStopParser s' = false
    /\ mParserThreadPoolObj s' =
         match mParserThreadPoolObj s with
         | Some p => Some (mkPool (nThreads p) (interval p) (pending p ++ ts))
         | None => Some (mkPool 1 (session_interval keyfile) ts)
         end
    /\ mGpsData s' = mGpsData (init s)
    /\ delivered s' = delivered s ++ [SessionBegin]
    /\ clock_reads s' = clock_reads s
    /\ freads s' = freads s ++ log
    /\ contiguous (Z.max 0 (mSeekOffset s)) log
    /\ chunked log
    /\ bytes_of log <=
         Z.of_nat (List.length (skipn (Z.to_nat (Z.max 0 (mSeekOffset s))) data))
    /\ ((mNmeaFp s' = None
         /\ watch s' = true
         /\ List.concat (map snd log) =
              skipn (Z.to_nat (Z.max 0 (mSeekOffset s))) data
         /\ List.length log =
              S (List.length (skipn (Z.to_nat (Z.max 0 (mSeekOffset s))) data)
                 / chunk_bytes)
         /\ mSeekOffset s' = mSeekOffset s + bytes_of log)
        \/ (exists fp' log0 chunk b,
              mNmeaFp s' = Some fp'
              /\ watch s' = watch s
              /\ log = log0 ++ [(Z.max 0 (mSeekOffset s) + bytes_of log0, chunk)]
              /\ snd (frames b chunk) <> ERROR_OK
              /\ mSeekOffset s' = mSeekOffset s + bytes_of log0)).
Proof.
  intros e s data keyfile Hfile Hcfg Hstop.
  rewrite (startParsing_unfold_any e s data keyfile Hfile Hcfg); cbv zeta.
  destruct (loop_entry_state s data keyfile)
    as (Efp & Estop & Eoff & Egps & Ewatch & Edel & Eclk & Elog & Epool).
  set (fp := mkFILE data (Z.max 0 (mSeekOffset s)) false) in *.
  set (s1 := match mParserThreadPoolObj s with
             | None => _
             | Some _ => _
             end) in *.
  set (p1 := match mParserThreadPoolObj s with
             | Some p => p
             | None => mkPool 1 (session_interval keyfile) []
             end) in *.
  assert (Hfuel : (List.length (remaining fp) < S (List.length data))%nat)
    by (unfold remaining; subst fp; cbn [fdata fpos]; rewrite length_skipn; lia).
  assert (Hpos : 0 <= fpos fp) by (subst fp; cbn [fpos]; lia).
  rewrite <- Estop in Hstop.
  destruct (read_loop_general _ s1 fp p1 Efp eq_refl Hpos Hstop Epool Hfuel)
    as (r & s2 & fp' & log & ts & HL & Rfp & Rstop & Rpool
        & (Rgps & Rwatch & Rdel & Rclk) & Rlog & Rcont & Rchunk & Rbytes & Rend).
  rewrite HL; cbn [bind].
  assert (Hpool : Some (mkPool (nThreads p1) (interval p1) (pending p1 ++ ts)) =
                  match mParserThreadPoolObj s with
                  | Some p => Some (mkPool (nThreads p) (interval p) (pending p ++ ts))
                  | None => Some (mkPool 1 (session_interval keyfile) ts)
                  end)
    by (subst p1; destruct (mParserThreadPoolObj s); reflexivity).
  unfold remaining in *; subst fp; cbn [fdata fpos] in *.
  destruct Rend as [(Hr & Reof & Rcat & Rcount & Roff)
                   |(Hr & log0 & chunk & b & Hlog & Herr & Roff & Rpos)]; subst r.
  - rewrite Rfp.
    exists (parser_inotify_register (set_mNmeaFp s2 None)), log, ts.
    split; [reflexivity|].
    cbn [parser_inotify_register set_watch set_mNmeaFp mNmeaFp mSeekOffset
         mStopParser mParserThreadPoolObj mGpsData watch delivered clock_reads
         freads].
    rewrite Rstop, Rpool, Rgps, Rdel, Rclk, Rlog, Egps, Edel, Eclk, Elog, Hpool.
    repeat split; try assumption.
    left; repeat split; try assumption.
    rewrite Roff, Eoff; unfold bytes_of; rewrite Rcat; reflexivity.
  - exists s2, log, ts.
    split; [reflexivity|].
    rewrite Rstop, Rpool, Rgps, Rdel, Rclk, Rlog, Egps, Edel, Eclk, Elog, Hpool.
    repeat split; try assumption.
    right; exists fp', log0, chunk, b.
    rewrite Rwatch, Ewatch, Roff, Eoff; repeat split; assumption.
Qed.

(** With file and configuration present and a stop pending, a call uses
    the stop up: it returns true with the handle closed. *)
Lemma startParsing_stop_pending : forall e (s : ParserNmea) data keyfile,
  nmea_file e = Some data ->
  config_file e = Some keyfile ->
  mStopParser s = true ->
  exists s',
    startParsing e s = Ok (true, s')
    /\ mNmeaFp s' = None
    /\ mStopParser s' = false
    /\ mSeekOffset s' = mSeekOffset s
    /\ mParserThreadPoolObj s' =
         Some match mParserThreadPoolObj s with
              | Some p => p
              | None => mkPool 1 (session_interval keyfile) []
              end
    /\ mGpsData s' = mGpsData (init s)
    /\ watch s' = watch s
    /\ delivered s' = delivered s ++ [SessionBegin]
    /\ clock_reads s' = clock_reads s
    /\ freads s' = freads s.
Proof.
  intros e s data keyfile Hfile Hcfg Hstop.
  rewrite (startParsing_unfold_any e s data keyfile Hfile Hcfg); cbv zeta.
  destruct (loop_entry_state s data keyfile)
    as (Efp & Estop & Eoff & Egps & Ewatch & Edel & Eclk & Elog & Epool).
  rewrite Hstop in Estop.
  rewrite (read_loop_stop _ _ _ Efp eq_refl Estop); cbn [bind].
  eexists; split; [reflexivity|].
  cbn [set_mNmeaFp set_mStopParser mNmeaFp mSeekOffset mStopParser
       mParserThreadPoolObj mGpsData watch delivered clock_reads freads].
  repeat split; assumption.
Qed.

Lemma startParsing_no_file : forall e (s : ParserNmea),
  nmea_file e = None -> startParsing e s = Ok (false, set_mNmeaFp s None).
Proof. intros e s Hfile; unfold startParsing; rewrite Hfile; reflexivity. Qed.

Lemma startParsing_no_config : forall e (s : ParserNmea) data,
  nmea_file e = Some data -> config_file e = None ->
  startParsing e s =
    Ok (false, SetGpsStatus NYX_GPS_STATUS_SESSION_BEGIN
                 (init (set_mNmeaFp s (Some (mkFILE data 0 false))))).
Proof.
  intros e s data Hfile Hcfg; unfold startParsing, gps_config_load_file.
  rewrite Hfile, Hcfg; reflexivity.
Qed.

Lemma bytes_of_nonneg : forall log, 0 <= bytes_of log.
Proof. intros log; unfold bytes_of; lia. Qed.

Lemma bytes_of_app : forall log1 log2,
  bytes_of (log1 ++ log2) = bytes_of log1 + bytes_of log2.
Proof.
  intros log1 log2; unfold bytes_of.
  rewrite map_app, concat_app, length_app; lia.
Qed.

(** What holds of every call, on every path. *)
Lemma startParsing_any : forall e (s : ParserNmea),
  exists b s' log,
    startParsing e s = Ok (b, s')
    /\ delivered s' =
         delivered s ++ match nmea_file e with
                        | Some _ => [SessionBegin]
                        | None => []
                        end
    /\ clock_reads s' = clock_reads s
    /\ mGpsData s' = match nmea_file e with
                     | Some _ => mGpsData (init s)
                     | None => mGpsData s
                     end
    /\ freads s' = freads s ++ log
    /\ mSeekOffset s <= mSeekOffset s' <= mSeekOffset s + bytes_of log
    /\ (forall p, mParserThreadPoolObj s = Some p ->
          exists ts, mParserThreadPoolObj s' =
                       Some (mkPool (nThreads p) (interval p) (pending p ++ ts)))
    /\ (b = true <->
          nmea_file e <> None /\ config_file e <> None /\ mStopParser s = true).
Proof.
  intros e s.
  destruct (nmea_file e) as [data|] eqn:Hfile.
  - destruct (config_file e) as [keyfile|] eqn:Hcfg.
    + destruct (mStopParser s) eqn:Hstop.
      * destruct (startParsing_stop_pending e s data keyfile Hfile Hcfg Hstop)
          as (s' & HS & _ & _ & Roff & Rpool & Rgps & _ & Rdel & Rclk & Rlog).
        exists true, s', []; rewrite app_nil_r.
        repeat split; try assumption; try discriminate; try lia.
        -- rewrite Roff; unfold bytes_of; cbn; lia.
        -- intros p Hp; exists []; rewrite Rpool, Hp, pool_eta; reflexivity.
      * destruct (startParsing_pass_general e s data keyfile Hfile Hcfg Hstop)
          as (s' & log & ts & HS & _ & Rpool & Rgps & Rdel & Rclk & Rlog & _ & _
              & _ & Rend).
        exists false, s', log.
        pose proof (bytes_of_nonneg log) as Hnn.
        repeat split; try assumption; try discriminate.
        -- destruct Rend as [(_ & _ & _ & _ & Roff)
                            |(fp' & log0 & chunk & b & _ & _ & _ & _ & Roff)];
             rewrite Roff; [lia|pose proof (bytes_of_nonneg log0); lia].
        -- destruct Rend as [(_ & _ & _ & _ & Roff)
                            |(fp' & log0 & chunk & b & _ & _ & Hlog & _ & Roff)];
             rewrite Roff; [lia|].
           rewrite Hlog, bytes_of_app.
           pose proof (bytes_of_nonneg [(Z.max 0 (mSeekOffset s) + bytes_of log0, chunk)]).
           lia.
        -- intros p Hp; exists ts; rewrite Rpool, Hp; reflexivity.
        -- intros (_ & _ & Habs); discriminate.
    + rewrite (startParsing_no_config e s data Hfile Hcfg).
      eexists false, _, []; split; [reflexivity|].
      destruct s; unfold bytes_of; cbn.
      rewrite app_nil_r.
      repeat split; try discriminate; try lia.
      * intros p Hp; exists []; rewrite Hp, pool_eta; reflexivity.
      * intros (_ & Habs & _); congruence.
  - rewrite (startParsing_no_file e s Hfile).
    eexists false, _, []; split; [reflexivity|].
    destruct s; unfold bytes_of; cbn.
    rewrite !app_nil_r.
    repeat split; try discriminate; try lia.
    + intros p Hp; exists []; rewrite Hp, pool_eta; reflexivity.
    + intros (Habs & _); congruence.
Qed.

(** ** Starting without the configuration *)


(** ** Starting again while a session runs *)

Lemma init_fix_state : forall s : ParserNmea,
  mGpsData (init s) =
    mk_gps_data (latitude (mGpsData s)) (longitude (mGpsData s))
                (-1)%float (-1)%float (-1)%float (-1)%float.
Proof. intros s; destruct s; reflexivity. Qed.

(** C2 (amended): [startParsing] has no test for a session that already
    runs.  Called while a session waits for a change notification (the
    tracked file present and readable, the configuration present, no stop
    pending) it goes
    through a whole session start again: it re-opens the file, runs
    [init] (altitude, speed, direction and horizontal accuracy go back to
    -1, latitude and longitude stay), reports a second SessionBegin,
    reads from the read offset on and returns false.  The read pass ends
    in one of two ways.  At the end of the file: every byte behind the
    read offset was read, the offset has advanced by them, the handle is
    closed and the watch registered.  Or at the first chunk the decoder
    rejects: the handle stays open and the offset stands at the start of
    that chunk.  What the call keeps is the read offset, from which it
    reads and which it never moves back, and the queue, which is not
    rebuilt (tasks are added to it). *)
Theorem C2_start_while_running_restarts :
  forall e (s : ParserNmea) data keyfile p,
  nmea_file e = Some data ->
  config_file e = Some keyfile ->
  awaiting_notification s p ->
  exists s' first rest ts,
    startParsing e s = Ok (false, s')
    /\ delivered s' = delivered s ++ [SessionBegin]
    /\ mGpsData s' =
         mk_gps_data (latitude (mGpsData s)) (longitude (mGpsData s))
                     (-1)%float (-1)%float (-1)%float (-1)%float
    /\ freads s' = freads s ++ (mSeekOffset s, first) :: rest
    /\ mParserThreadPoolObj s' =
         Some (mkPool (nThreads p) (interval p) (pending p ++ ts))
    /\ mSeekOffset s <= mSeekOffset s'
    /\ watch s' = true
    /\ ((mNmeaFp s' = None
         /\ first ++ List.concat (map snd rest) =
              skipn (Z.to_nat (mSeekOffset s)) data
         /\ mSeekOffset s' =
              mSeekOffset s
              + Z.of_nat (List.length (skipn (Z.to_nat (mSeekOffset s)) data)))
        \/ (exists fp' accepted chunk b,
              mNmeaFp s' = Some fp'
              /\ (mSeekOffset s, first) :: rest =
                   accepted ++ [(mSeekOffset s', chunk)]
              /\ snd (frames b chunk) <> ERROR_OK
              /\ mSeekOffset s' = mSeekOffset s + bytes_of accepted)).
Proof.
  intros e s data keyfile p Hfile Hcfg (Hfp & Hwatch & Hstop & Hpool & Hoff).
  destruct (startParsing_pass_general e s data keyfile Hfile Hcfg Hstop)
    as (s' & log & ts & HS & _ & Rpool & Rgps & Rdel & _ & Rlog & Rcont & _ & _ & Rend).
  rewrite Z.max_r in Rcont, Rend by exact Hoff.
  assert (Hne : exists first rest, log = (mSeekOffset s, first) :: rest).
  { destruct log as [|[q first] rest].
    - exfalso; destruct Rend as [(_ & _ & _ & Rlen & _)|(fp' & log0 & chunk & b & _ & _ & Rl & _)].
      + discriminate Rlen.
      + destruct log0; discriminate Rl.
    - destruct Rcont as [-> _]; exists first, rest; reflexivity. }
  destruct Hne as (first & rest & ->).
  exists s', first, rest, ts.
  split; [exact HS|]; split; [exact Rdel|].
  split; [rewrite Rgps; apply init_fix_state|].
  split; [exact Rlog|].
  split; [rewrite Rpool, Hpool; reflexivity|].
  destruct Rend as [(Rfp & Rwatch & Rcat & _ & Roff)
                   |(fp' & log0 & chunk & b & Rfp & Rwatch & Rl & Rrej & Roff)].
  - assert (Hbytes : bytes_of ((mSeekOffset s, first) :: rest) =
                     Z.of_nat (List.length (skipn (Z.to_nat (mSeekOffset s)) data)))
      by (unfold bytes_of; rewrite Rcat; reflexivity).
    split; [rewrite Roff, Hbytes; lia|].
    split; [exact Rwatch|].
    left; split; [exact Rfp|]; split; [exact Rcat|].
    rewrite Roff, Hbytes; reflexivity.
  - split; [pose proof (bytes_of_nonneg log0); lia|].
    split; [rewrite Rwatch; exact Hwatch|].
    right; exists fp', log0, chunk, b.
    split; [exact Rfp|]; split; [rewrite Roff; exact Rl|].
    split; [exact Rrej|exact Roff].
Qed.

(** ** Stop with the handle open, then start *)

(** C4 (the code where the claim fails): a stop that finds the file
    handle open, which is what a start leaves behind that failed for want
    of the configuration or on a chunk the decoder rejected, resets the
    read offset to 0 and raises the stop flag.  No loop is running that
    could use the flag up, so the start that follows, with the tracked
    file and the configuration present, returns true before its first
    read: the file is not parsed again from byte 0, nothing is read, the
    handle is closed and no watch is registered. *)
Theorem C4_stop_with_open_handle_blocks_reparse :
  forall e (s : ParserNmea) fp data keyfile,
  mNmeaFp s = Some fp ->
  nmea_file e = Some data ->
  config_file e = Some keyfile ->
  mSeekOffset (snd (stopParsing s)) = 0
  /\ mStopParser (snd (stopParsing s)) = true
  /\ exists s',
       startParsing e (snd (stopParsing s)) = Ok (true, s')
       /\ freads s' = freads s
       /\ mSeekOffset s' = 0
       /\ mNmeaFp s' = None
       /\ watch s' = false.
Proof.
  intros e s fp data keyfile Hfp Hfile Hcfg.
  assert (Hstop : mStopParser (snd (stopParsing s)) = true).
  { destruct s as [b fp0 off stop pool d w out n log]; cbn in Hfp; subst fp0.
    unfold stopParsing; destruct pool; reflexivity. }
  assert (Hrest : mSeekOffset (snd (stopParsing s)) = 0
                  /\ freads (snd (stopParsing s)) = freads s
                  /\ watch (snd (stopParsing s)) = false).
  { destruct s as [b fp0 off stop pool d w out n log].
    unfold stopParsing; destruct pool, fp0; repeat split. }
  destruct Hrest as (Hoff & Hlog & Hwatch).
  split; [exact Hoff|]; split; [exact Hstop|].
  destruct (startParsing_stop_pending e (snd (stopParsing s)) data keyfile
              Hfile Hcfg Hstop)
    as (s' & HS & Rfp & _ & Roff & _ & _ & Rwatch & _ & _ & Rlog).
  exists s'; split; [exact HS|].
  split; [rewrite Rlog; exact Hlog|].
  split; [rewrite Roff; exact Hoff|].
  split; [exact Rfp|rewrite Rwatch; exact Hwatch].
Qed.

(** ** Every start *)


(** X2: [startParsing] returns true if and only if it is called with
    the tracked file and the configuration present and a stop pending. *)
Theorem startParsing_true_iff_stop_pending : forall e (s : ParserNmea),
  (exists s', startParsing e s = Ok (true, s'))
  <-> (nmea_file e <> None /\ config_file e <> None /\ mStopParser s = true).
Proof.
  intros e s.
  destruct (startParsing_any e s) as (b & s' & log & HS & _ & _ & _ & _ & _ & _ & Hb).
  split.
  - intros [s'' HS']; rewrite HS in HS'; injection HS' as -> _.
    apply Hb; reflexivity.
  - intros H; apply Hb in H; subst b; exists s'; exact HS.
Qed.

(** X3: a start that finds a stop pending uses it up: it reports
    SessionBegin and resets FixState like every start, then closes the
    file again without a single read, leaves the offset and the watch as
    they were and reports no SessionEnd. *)
Theorem startParsing_consumes_pending_stop :
  forall e (s : ParserNmea) data keyfile,
  nmea_file e = Some data ->
  config_file e = Some keyfile ->
  mStopParser s = true ->
  exists s',
    startParsing e s = Ok (true, s')
    /\ mStopParser s' = false
    /\ mNmeaFp s' = None
    /\ freads s' = freads s
    /\ mSeekOffset s' = mSeekOffset s
    /\ watch s' = watch s
    /\ delivered s' = delivered s ++ [SessionBegin]
    /\ mGpsData s' = mGpsData (init s).
Proof.
  intros e s data keyfile Hfile Hcfg Hstop.
  destruct (startParsing_stop_pending e s data keyfile Hfile Hcfg Hstop)
    as (s' & HS & Rfp & Rstop & Roff & _ & Rgps & Rwatch & Rdel & _ & Rlog).
  exists s'; repeat split; assumption.
Qed.

(** X4: [startParsing] itself invokes no callback but the status
    callback, once with SessionBegin when the file could be opened and
    not at all otherwise; it never reads the clock, and it changes
    FixState by [init] only. *)
Theorem startParsing_delivers_only_SessionBegin : forall e (s : ParserNmea),
  exists b s',
    startParsing e s = Ok (b, s')
    /\ delivered s' =
         delivered s ++ match nmea_file e with
                        | Some _ => [SessionBegin]
                        | None => []
                        end
    /\ clock_reads s' = clock_reads s
    /\ mGpsData s' = match nmea_file e with
                     | Some _ => mGpsData (init s)
                     | None => mGpsData s
                     end.
Proof.
  intros e s.
  destruct (startParsing_any e s) as (b & s' & log & HS & Hdel & Hclk & Hgps & _).
  exists b, s'; repeat split; assumption.
Qed.

(** X5: [startParsing] never lowers the read offset and never advances
    it by more than the bytes it read in the call; the reads of earlier
    calls stay in the log. *)
Theorem startParsing_offset_monotone : forall e (s : ParserNmea),
  exists b s' log,
    startParsing e s = Ok (b, s')
    /\ freads s' = freads s ++ log
    /\ mSeekOffset s <= mSeekOffset s'
    /\ mSeekOffset s' <= mSeekOffset s + bytes_of log.
Proof.
  intros e s.
  destruct (startParsing_any e s) as (b & s' & log & HS & _ & _ & _ & Hlog & Hoff & _).
  exists b, s', log; repeat split; try assumption; apply Hoff.
Qed.

(** X6: a queue that exists is never rebuilt by [startParsing], whatever
    the configuration says by then: its interval stays, its pending
    tasks keep their order, and new tasks go behind them. *)
Theorem startParsing_keeps_queue : forall e (s : ParserNmea) p,
  mParserThreadPoolObj s = Some p ->
  exists b s' ts,
    startParsing e s = Ok (b, s')
    /\ mParserThreadPoolObj s' =
         Some (mkPool (nThreads p) (interval p) (pending p ++ ts)).
Proof.
  intros e s p Hp.
  destruct (startParsing_any e s) as (b & s' & log & HS & _ & _ & _ & _ & _ & Hpool & _).
  destruct (Hpool p Hp) as [ts Hts].
  exists b, s', ts; split; assumption.
Qed.

(** ** The reads of a pass *)

(** A chunked log that is not empty is a run of full chunks and a last
    read. *)
Lemma chunked_split : forall log,
  chunked log -> log <> [] ->
  exists front last,
    log = front ++ [last]
    /\ Forall (fun c => List.length (snd c) = chunk_bytes) front
    /\ (List.length (snd last) <= chunk_bytes)%nat
    /\ bytes_of log =
         Z.of_nat (chunk_bytes * List.length front + List.length (snd last)).
Proof.
  induction log as [|[pos c] rest IH]; intros Hch Hne; [congruence|].
  destruct rest as [|e rest'].
  - exists [], (pos, c); cbn [chunked] in Hch.
    repeat split; [constructor|exact Hch|].
    unfold bytes_of; cbn [map List.concat snd List.length app].
    rewrite app_nil_r; lia.
  - cbn [chunked] in Hch; destruct Hch as [Hfull Hrest].
    destruct (IH Hrest) as (front & last & Hlog & Hall & Hlast & Hbytes);
      [discriminate|].
    exists ((pos, c) :: front), last.
    rewrite Hlog; repeat split.
    + constructor; assumption.
    + assumption.
    + rewrite <- Hlog, bytes_of_cons, Hbytes; cbn [List.length]; lia.
Qed.

Lemma contiguous_app_last : forall log pos q c,
  contiguous pos (log ++ [(q, c)]) -> q = pos + bytes_of log.
Proof.
  induction log as [|[p0 c0] rest IH]; intros pos q c Hc; cbn [app contiguous] in Hc.
  - unfold bytes_of; cbn; lia.
  - destruct Hc as [_ Hc]; rewrite (IH _ _ _ Hc), bytes_of_cons; lia.
Qed.

(** X7: whatever the decoder answers, a call that enters the loop reads
    at least once, the first read at the read offset, every read where
    the one before ended, every read but the last a full 512 bytes, all
    of it inside what the file holds behind the offset. *)
Theorem startParsing_reads_contiguous_chunks :
  forall e (s : ParserNmea) data keyfile,
  nmea_file e = Some data ->
  config_file e = Some keyfile ->
  mStopParser s = false ->
  0 <= mSeekOffset s ->
  exists s' first rest,
    startParsing e s = Ok (false, s')
    /\ freads s' = freads s ++ (mSeekOffset s, first) :: rest
    /\ contiguous (mSeekOffset s) ((mSeekOffset s, first) :: rest)
    /\ chunked ((mSeekOffset s, first) :: rest)
    /\ bytes_of ((mSeekOffset s, first) :: rest) <=
         Z.of_nat (List.length (skipn (Z.to_nat (mSeekOffset s)) data)).
Proof.
  intros e s data keyfile Hfile Hcfg Hstop Hoff.
  destruct (startParsing_pass_general e s data keyfile Hfile Hcfg Hstop)
    as (s' & log & ts & HS & _ & _ & _ & _ & _ & Rlog & Rcont & Rchunk & Rbytes
        & Rend).
  replace (Z.max 0 (mSeekOffset s)) with (mSeekOffset s) in * by lia.
  assert (Hne : log <> []).
  { destruct Rend as [(_ & _ & _ & Rcount & _)
                     |(fp' & log0 & chunk & b & _ & _ & Hlog & _)].
    - intros ->; discriminate Rcount.
    - rewrite Hlog; intros Habs; apply app_eq_nil in Habs; destruct Habs; discriminate. }
  destruct log as [|[q first] rest]; [congruence|].
  assert (Hq : q = mSeekOffset s) by (cbn [contiguous] in Rcont; apply Rcont).
  subst q; exists s', first, rest.
  split; [exact HS|]; split; [exact Rlog|]; split; [exact Rcont|].
  split; [exact Rchunk|exact Rbytes].
Qed.

(** X8: a pass ends in one of two ways.  Either it reached the end of
    the file: the handle is closed, the watch registered and the read
    offset advanced by all the bytes read.  Or the decoder rejected a
    chunk: the handle stays open, no watch is registered by this call,
    and the read offset stops at the position where the rejected chunk
    was read, so that chunk is not counted. *)
Theorem startParsing_counts_accepted_chunks_only :
  forall e (s : ParserNmea) data keyfile,
  nmea_file e = Some data ->
  config_file e = Some keyfile ->
  mStopParser s = false ->
  0 <= mSeekOffset s ->
  exists s' log,
    startParsing e s = Ok (false, s')
    /\ freads s' = freads s ++ log
    /\ ((mNmeaFp s' = None
         /\ watch s' = true
         /\ List.concat (map snd log) = skipn (Z.to_nat (mSeekOffset s)) data
         /\ mSeekOffset s' = mSeekOffset s + bytes_of log)
        \/ (exists fp' log0 chunk b,
              mNmeaFp s' = Some fp'
              /\ watch s' = watch s
              /\ log = log0 ++ [(mSeekOffset s', chunk)]
              /\ snd (frames b chunk) <> ERROR_OK
              /\ mSeekOffset s' = mSeekOffset s + bytes_of log0)).
Proof.
  intros e s data keyfile Hfile Hcfg Hstop Hoff.
  destruct (startParsing_pass_general e s data keyfile Hfile Hcfg Hstop)
    as (s' & log & ts & HS & _ & _ & _ & _ & _ & Rlog & _ & _ & _ & Rend).
  replace (Z.max 0 (mSeekOffset s)) with (mSeekOffset s) in * by lia.
  exists s', log; repeat split; try assumption.
  destruct Rend as [(Rfp & Rwatch & Rcat & _ & Roff)
                   |(fp' & log0 & chunk & b & Rfp & Rwatch & Hlog & Herr & Roff)].
  - left; repeat split; assumption.
  - right; exists fp', log0, chunk, b.
    split; [exact Rfp|]; split; [exact Rwatch|].
    split; [rewrite Roff; exact Hlog|]; split; [exact Herr|exact Roff].
Qed.

(** X9: with a decoder that reports no error, a pass over [n] bytes
    behind the offset makes [n / 512 + 1] reads: [n / 512] full chunks
    and a last read of [n mod 512] bytes.  So an empty remainder, or one
    that is a multiple of 512 bytes, still costs a last read that
    delivers nothing. *)
Theorem startParsing_read_count :
  forall e (s : ParserNmea) data keyfile,
  decoder_never_fails ->
  nmea_file e = Some data ->
  config_file e = Some keyfile ->
  mStopParser s = false ->
  0 <= mSeekOffset s ->
  let n := List.length (skipn (Z.to_nat (mSeekOffset s)) data) in
  exists s' front last,
    startParsing e s = Ok (false, s')
    /\ freads s' = freads s ++ front ++ [last]
    /\ List.length front = (n / chunk_bytes)%nat
    /\ Forall (fun c => List.length (snd c) = chunk_bytes) front
    /\ List.length (snd last) = (n mod chunk_bytes)%nat.
Proof.
  intros e s data keyfile Hok Hfile Hcfg Hstop Hoff n.
  destruct (startParsing_pass_general e s data keyfile Hfile Hcfg Hstop)
    as (s' & log & ts & HS & _ & _ & _ & _ & _ & Rlog & _ & Rchunk & _ & Rend).
  replace (Z.max 0 (mSeekOffset s)) with (mSeekOffset s) in * by lia.
  destruct Rend as [(_ & _ & Rcat & Rcount & _)
                   |(fp' & log0 & chunk & b & _ & _ & _ & Herr & _)];
    [|exfalso; apply Herr, Hok].
  fold n in Rcat, Rcount.
  destruct (chunked_split log Rchunk) as (front & last & Hlog & Hall & Hlast & Hbytes);
    [intros ->; discriminate Rcount|].
  assert (Hfront : List.length front = (n / chunk_bytes)%nat).
  { rewrite Hlog, length_app in Rcount; cbn [List.length] in Rcount; lia. }
  exists s', front, last; rewrite <- Hlog.
  repeat split; try assumption.
  unfold bytes_of in Hbytes; rewrite Rcat in Hbytes; fold n in Hbytes.
  pose proof chunk_bytes_pos as Hchunk.
  pose proof (Nat.div_mod_eq n chunk_bytes) as Hdm.
  rewrite Hfront in Hbytes; lia.
Qed.

(** X10: when the file is not longer than the read offset (it was
    truncated or replaced by a shorter one), a start reads nothing: one
    read at the offset that delivers no byte, and the read offset stays.
    What the file holds before the offset is not parsed. *)
Theorem startParsing_on_shorter_file :
  forall e (s : ParserNmea) data keyfile,
  nmea_file e = Some data ->
  config_file e = Some keyfile ->
  mStopParser s = false ->
  Z.of_nat (List.length data) <= mSeekOffset s ->
  exists s',
    startParsing e s = Ok (false, s')
    /\ freads s' = freads s ++ [(mSeekOffset s, [])]
    /\ mSeekOffset s' = mSeekOffset s.
Proof.
  intros e s data keyfile Hfile Hcfg Hstop Hshort.
  destruct (startParsing_pass_general e s data keyfile Hfile Hcfg Hstop)
    as (s' & log & ts & HS & _ & _ & _ & _ & _ & Rlog & Rcont & Rchunk & Rbytes
        & Rend).
  replace (Z.max 0 (mSeekOffset s)) with (mSeekOffset s) in * by lia.
  rewrite length_skipn in Rbytes.
  assert (Hne : log <> []).
  { destruct Rend as [(_ & _ & _ & Rcount & _)
                     |(fp' & log0 & chunk & b & _ & _ & Hlog & _)].
    - intros ->; discriminate Rcount.
    - rewrite Hlog; intros Habs; apply app_eq_nil in Habs; destruct Habs; discriminate. }
  destruct (chunked_split log Rchunk Hne) as (front & [q c] & Hlog & Hall & Hlast & Hbytes).
  pose proof chunk_bytes_pos as Hchunk.
  cbn [snd] in *.
  assert (Hfront : front = []) by (destruct front; [reflexivity|cbn [List.length] in *; nia]).
  subst front; cbn [app List.length] in *.
  assert (Hc : c = []) by (destruct c; [reflexivity|cbn [List.length] in *; lia]).
  subst c log; cbn [contiguous] in Rcont; destruct Rcont as [-> _].
  exists s'; repeat split; try assumption.
  destruct Rend as [(_ & _ & _ & _ & Roff)
                   |(fp' & log0 & chunk & b & _ & _ & Hlog & _ & Roff)].
  - rewrite Roff; unfold bytes_of; cbn; lia.
  - destruct log0 as [|e0 log0]; [rewrite Roff; unfold bytes_of; cbn; lia|].
    destruct log0; discriminate Hlog.
Qed.

(** ** The notification handler *)

Lemma nat_of_ascii_inj : forall a b : ascii,
  nat_of_ascii a = nat_of_ascii b -> a = b.
Proof.
  intros a b H.
  rewrite <- (ascii_nat_embedding a), <- (ascii_nat_embedding b), H; reflexivity.
Qed.

(** On strings of one length [strncmp] over that length answers 0 only
    for equal strings. *)
Lemma strncmp_zero_eq : forall a b : string,
  String.length a = String.length b ->
  strncmp a b (String.length b) = 0 -> a = b.
Proof.
  induction a as [|ca a IH]; intros [|cb b] Hlen Hcmp; cbn in Hlen;
    try discriminate; [reflexivity|].
  cbn [String.length strncmp] in Hcmp.
  destruct (Ascii.eqb_spec ca cb) as [->|Hne].
  - f_equal; apply IH; [congruence|assumption].
  - exfalso; apply Hne, nat_of_ascii_inj; lia.
Qed.

Lemma handler_name_test : forall ident : string,
  negb (strlen ident =? strlen nmea_file_name)
  || negb (strncmp ident nmea_file_name (String.length nmea_file_name) =? 0)
  = false ->
  ident = nmea_file_name.
Proof.
  intros ident H.
  apply orb_false_elim in H; destruct H as [Hlen Hcmp].
  apply negb_false_iff in Hlen, Hcmp.
  apply Z.eqb_eq in Hlen, Hcmp.
  apply strncmp_zero_eq; [unfold strlen in Hlen; lia|assumption].
Qed.

(** X11: the handler acts on nothing but a modification or move-in of
    the tracked file: an event without a name, with any other name, or
    of any other kind leaves the parser as it is. *)
Theorem parser_inotify_handler_ignores_other_events :
  forall e (event : inotify_event) (ident : option string) (s : ParserNmea),
  ident <> Some nmea_file_name
  \/ Z.land (mask event) (Z.lor IN_MODIFY IN_MOVED_TO) = 0 ->
  parser_inotify_handler e event ident s = Ok s.
Proof.
  intros e event ident s Hother; unfold parser_inotify_handler.
  destruct ident as [ident|]; [|reflexivity].
  destruct (negb (strlen ident =? strlen nmea_file_name)
            || negb (strncmp ident nmea_file_name
                       (String.length nmea_file_name) =? 0)) eqn:Htest;
    [reflexivity|].
  apply handler_name_test in Htest; subst ident.
  destruct Hother as [Hname|Hmask]; [congruence|].
  rewrite Hmask; reflexivity.
Qed.

(** X12: when the notification arrives and the tracked file is gone, the
    handler has unregistered the watch before the start fails: the
    parser is left with no watch and no open file, and neither
    SessionBegin nor SessionEnd is reported. *)
Theorem parser_inotify_handler_file_gone :
  forall e (event : inotify_event) (s : ParserNmea),
  nmea_file e = None ->
  Z.land (mask event) (Z.lor IN_MODIFY IN_MOVED_TO) <> 0 ->
  exists s',
    parser_inotify_handler e event (Some nmea_file_name) s = Ok s'
    /\ s' = set_mNmeaFp (set_watch s false) None
    /\ watch s' = false
    /\ mNmeaFp s' = None
    /\ delivered s' = delivered s
    /\ mSeekOffset s' = mSeekOffset s.
Proof.
  intros e event s Hfile Hmask; unfold parser_inotify_handler.
  rewrite handler_accepts_tracked_file.
  destruct (Z.eqb_spec (Z.land (mask event) (Z.lor IN_MODIFY IN_MOVED_TO)) 0)
    as [Hz|_]; [contradiction|]; cbn [negb].
  rewrite startParsing_no_file by assumption; cbn [bind].
  eexists; split; [reflexivity|]; repeat split.
Qed.

(** ** Sentence dispatch *)

Lemma length_append : forall a b : string,
  String.length (a ++ b)%string = (String.length a + String.length b)%nat.
Proof.
  induction a as [|c a IH]; intros b; cbn; [reflexivity|rewrite IH; reflexivity].
Qed.

Lemma length_precision : forall n (t : string),
  (String.length (precision n t) <= Nat.min n (String.length t))%nat.
Proof.
  unfold precision; induction n as [|n IH]; intros [|c t]; cbn; try lia.
  specialize (IH t); lia.
Qed.

Lemma substring_whole : forall n (t : string),
  (String.length t <= n)%nat -> String.substring 0 n t = t.
Proof.
  induction n as [|n IH]; intros [|c t] Hlen; cbn in *; try reflexivity; try lia.
  rewrite IH by lia; reflexivity.
Qed.

(** The buffer [ProcessRxCommand] allocates always holds the whole
    formatted text: [snprintf] cuts nothing off. *)
Lemma rebuilt_text_fits : forall pCmd pData checksum : string,
  snprintf (strlen pCmd + strlen pData + 7) (rebuilt_text pCmd pData checksum)
    = rebuilt_text pCmd pData checksum.
Proof.
  intros pCmd pData checksum; unfold snprintf, strlen.
  apply substring_whole; unfold rebuilt_text.
  rewrite !length_append; cbn [String.length].
  pose proof (length_precision 5 pCmd); pose proof (length_precision 2 checksum).
  lia.
Qed.

(** [ProcessRxCommand] with the formatted text named. *)
Lemma ProcessRxCommand_unfold : forall (s : ParserNmea) pCmd pData checksum,
  ProcessRxCommand s pCmd pData checksum =
    (let s0 := set_base s (CNMEAParser_ProcessRxCommand (base s) pCmd pData) in
     let text := rebuilt_text pCmd pData checksum in
     s1 <- match strstr pCmd "GPGGA" with
           | Some _ =>
               if fst (GetGPGGA (base s0)) =? ERROR_OK
               then enqueue s0 (TaskGGA (snd (GetGPGGA (base s0))) text) else Ok s0
           | None =>
           match strstr pCmd "GPGSV" with
           | Some _ =>
               if fst (GetGPGSV (base s0)) =? ERROR_OK
               then enqueue s0 (TaskGSV (snd (GetGPGSV (base s0))) text) else Ok s0
           | None =>
           match strstr pCmd "GPGSA" with
           | Some _ =>
               if fst (GetGPGSA (base s0)) =? ERROR_OK
               then enqueue s0 (TaskGSA (snd (GetGPGSA (base s0))) text) else Ok s0
           | None =>
           match strstr pCmd "GPRMC" with
           | Some _ =>
               if fst (GetGPRMC (base s0)) =? ERROR_OK
               then enqueue s0 (TaskRMC (snd (GetGPRMC (base s0))) text) else Ok s0
           | None => Ok s0
           end end end end ;;
     Ok (ERROR_OK, s1)).
Proof.
  intros s pCmd pData checksum; unfold ProcessRxCommand; cbv zeta.
  fold (rebuilt_text pCmd pData checksum); rewrite rebuilt_text_fits.
  set (s0 := set_base s _).
  destruct (GetGPGGA (base s0)), (GetGPGSV (base s0)), (GetGPGSA (base s0)),
           (GetGPRMC (base s0)); reflexivity.
Qed.

Lemma enqueue_present : forall (s : ParserNmea) p t,
  mParserThreadPoolObj s = Some p ->
  enqueue s t =
    Ok (set_mParserThreadPoolObj s
          (Some (mkPool (nThreads p) (interval p) (pending p ++ [t])))).
Proof. intros s p t Hp; unfold enqueue; rewrite Hp; reflexivity. Qed.

(** X13: a sentence of one of the four kinds whose record decodes is
    queued as one task behind the tasks already pending; the task
    carries the record and the whole text [$cmd,data*cs] (at most five
    characters of the command, two of the checksum), cut nowhere.  The
    kinds are tried in the order GGA, GSV, GSA, RMC. *)
Theorem ProcessRxCommand_queues_recognized :
  forall (s : ParserNmea) pCmd pData checksum p,
  mParserThreadPoolObj s = Some p ->
  let b := CNMEAParser_ProcessRxCommand (base s) pCmd pData in
  let queued t :=
    ProcessRxCommand s pCmd pData checksum =
      Ok (ERROR_OK,
          set_mParserThreadPoolObj (set_base s b)
            (Some (mkPool (nThreads p) (interval p) (pending p ++ [t])))) in
  let text := ("$" ++ precision 5 pCmd ++ "," ++ pData ++ "*"
               ++ precision 2 checksum)%string in
  (strstr pCmd "GPGGA" <> None -> fst (GetGPGGA b) = ERROR_OK ->
   queued (TaskGGA (snd (GetGPGGA b)) text))
  /\ (strstr pCmd "GPGGA" = None -> strstr pCmd "GPGSV" <> None ->
      fst (GetGPGSV b) = ERROR_OK ->
      queued (TaskGSV (snd (GetGPGSV b)) text))
  /\ (strstr pCmd "GPGGA" = None -> strstr pCmd "GPGSV" = None ->
      strstr pCmd "GPGSA" <> None -> fst (GetGPGSA b) = ERROR_OK ->
      queued (TaskGSA (snd (GetGPGSA b)) text))
  /\ (strstr pCmd "GPGGA" = None -> strstr pCmd "GPGSV" = None ->
      strstr pCmd "GPGSA" = None -> strstr pCmd "GPRMC" <> None ->
      fst (GetGPRMC b) = ERROR_OK ->
      queued (TaskRMC (snd (GetGPRMC b)) text)).
Proof.
  intros s pCmd pData checksum p Hp b queued text; subst queued; cbv beta.
  rewrite ProcessRxCommand_unfold; cbv zeta.
  fold b; change (rebuilt_text pCmd pData checksum) with text.
  assert (Hp0 : mParserThreadPoolObj (set_base s b) = Some p) by exact Hp.
  repeat split.
  - intros Hgga Hok.
    destruct (strstr pCmd "GPGGA"); [|congruence].
    cbn [base set_base]; rewrite Hok; cbn [Z.eqb ERROR_OK].
    rewrite (enqueue_present _ p _ Hp0); reflexivity.
  - intros Hgga Hgsv Hok; rewrite Hgga.
    destruct (strstr pCmd "GPGSV"); [|congruence].
    cbn [base set_base]; rewrite Hok; cbn [Z.eqb ERROR_OK].
    rewrite (enqueue_present _ p _ Hp0); reflexivity.
  - intros Hgga Hgsv Hgsa Hok; rewrite Hgga, Hgsv.
    destruct (strstr pCmd "GPGSA"); [|congruence].
    cbn [base set_base]; rewrite Hok; cbn [Z.eqb ERROR_OK].
    rewrite (enqueue_present _ p _ Hp0); reflexivity.
  - intros Hgga Hgsv Hgsa Hrmc Hok; rewrite Hgga, Hgsv, Hgsa.
    destruct (strstr pCmd "GPRMC"); [|congruence].
    cbn [base set_base]; rewrite Hok; cbn [Z.eqb ERROR_OK].
    rewrite (enqueue_present _ p _ Hp0); reflexivity.
Qed.

(** X14: a sentence of a recognized kind whose record does not decode
    (the getter of its kind reports an error) is dropped: nothing is
    queued for it and no callback is invoked, with or without a queue. *)
Theorem ProcessRxCommand_drops_undecodable :
  forall (s : ParserNmea) pCmd pData checksum,
  let b := CNMEAParser_ProcessRxCommand (base s) pCmd pData in
  let dropped :=
    ProcessRxCommand s pCmd pData checksum = Ok (ERROR_OK, set_base s b) in
  (strstr pCmd "GPGGA" <> None -> fst (GetGPGGA b) <> ERROR_OK -> dropped)
  /\ (strstr pCmd "GPGGA" = None -> strstr pCmd "GPGSV" <> None ->
      fst (GetGPGSV b) <> ERROR_OK -> dropped)
  /\ (strstr pCmd "GPGGA" = None -> strstr pCmd "GPGSV" = None ->
      strstr pCmd "GPGSA" <> None -> fst (GetGPGSA b) <> ERROR_OK -> dropped)
  /\ (strstr pCmd "GPGGA" = None -> strstr pCmd "GPGSV" = None ->
      strstr pCmd "GPGSA" = None -> strstr pCmd "GPRMC" <> None ->
      fst (GetGPRMC b) <> ERROR_OK -> dropped).
Proof.
  intros s pCmd pData checksum b dropped; subst dropped.
  rewrite ProcessRxCommand_unfold; cbv zeta; fold b.
  repeat split.
  - intros Hgga Herr.
    destruct (strstr pCmd "GPGGA"); [|congruence].
    cbn [base set_base]; apply Z.eqb_neq in Herr; rewrite Herr; reflexivity.
  - intros Hgga Hgsv Herr; rewrite Hgga.
    destruct (strstr pCmd "GPGSV"); [|congruence].
    cbn [base set_base]; apply Z.eqb_neq in Herr; rewrite Herr; reflexivity.
  - intros Hgga Hgsv Hgsa Herr; rewrite Hgga, Hgsv.
    destruct (strstr pCmd "GPGSA"); [|congruence].
    cbn [base set_base]; apply Z.eqb_neq in Herr; rewrite Herr; reflexivity.
  - intros Hgga Hgsv Hgsa Hrmc Herr; rewrite Hgga, Hgsv, Hgsa.
    destruct (strstr pCmd "GPRMC"); [|congruence].
    cbn [base set_base]; apply Z.eqb_neq in Herr; rewrite Herr; reflexivity.
Qed.

Lemma prefix_length : forall a b : string,
  String.prefix a b = true -> (String.length a <= String.length b)%nat.
Proof.
  induction a as [|ca a IH]; intros [|cb b] H; cbn in *; try lia; try discriminate.
  destruct (Ascii.ascii_dec ca cb); [|discriminate].
  specialize (IH b H); lia.
Qed.

Lemma prefix_same_length : forall a b : string,
  String.prefix a b = true -> String.length a = String.length b -> a = b.
Proof.
  induction a as [|ca a IH]; intros [|cb b] H Hlen; cbn in *;
    try reflexivity; try discriminate.
  destruct (Ascii.ascii_dec ca cb) as [->|]; [|discriminate].
  f_equal; apply IH; [assumption|congruence].
Qed.

(** In a string not longer than the needle, [strstr] finds the needle
    only if the string is the needle. *)
Lemma strstr_short : forall hay needle : string,
  (String.length hay <= String.length needle)%nat ->
  strstr hay needle <> None -> hay = needle.
Proof.
  induction hay as [|c hay IH]; intros needle Hlen Hfound.
  - destruct needle; [reflexivity|cbn in Hfound; congruence].
  - cbn [strstr] in Hfound.
    destruct (String.prefix needle (String c hay)) eqn:Hpre.
    + symmetry; apply prefix_same_length; [assumption|].
      apply prefix_length in Hpre; lia.
    + cbn [String.length] in Hlen.
      assert (Heq : hay = needle) by (apply IH; [lia|assumption]).
      subst hay; lia.
Qed.

(** X15: among commands of up to five characters only the four literal
    commands GPGGA, GPGSV, GPGSA and GPRMC are dispatched.  The same
    sentence types from any other talker (GNGGA, GLGSV, ...) and all
    other types are dropped: nothing is queued and no raw-sentence event
    can follow. *)
Theorem ProcessRxCommand_only_GP_talker :
  forall (s : ParserNmea) pCmd pData checksum,
  (String.length pCmd <= 5)%nat ->
  pCmd <> "GPGGA" -> pCmd <> "GPGSV" -> pCmd <> "GPGSA" -> pCmd <> "GPRMC" ->
  ProcessRxCommand s pCmd pData checksum =
    Ok (ERROR_OK, set_base s (CNMEAParser_ProcessRxCommand (base s) pCmd pData)).
Proof.
  intros s pCmd pData checksum Hlen Hgga Hgsv Hgsa Hrmc.
  rewrite ProcessRxCommand_unfold; cbv zeta.
  destruct (strstr pCmd "GPGGA") eqn:E1;
    [exfalso; apply Hgga, strstr_short; [exact Hlen|congruence]|].
  destruct (strstr pCmd "GPGSV") eqn:E2;
    [exfalso; apply Hgsv, strstr_short; [exact Hlen|congruence]|].
  destruct (strstr pCmd "GPGSA") eqn:E3;
    [exfalso; apply Hgsa, strstr_short; [exact Hlen|congruence]|].
  destruct (strstr pCmd "GPRMC") eqn:E4;
    [exfalso; apply Hrmc, strstr_short; [exact Hlen|congruence]|].
  reflexivity.
Qed.

Lemma ProcessRxCommand_at_most_one : forall (s : ParserNmea) pCmd pData checksum p,
  mParserThreadPoolObj s = Some p ->
  exists s' ts,
    ProcessRxCommand s pCmd pData checksum = Ok (ERROR_OK, s')
    /\ mParserThreadPoolObj s' =
         Some (mkPool (nThreads p) (interval p) (pending p ++ ts))
    /\ (List.length ts <= 1)%nat.
Proof.
  intros s pCmd pData checksum p Hp.
  rewrite ProcessRxCommand_unfold; cbv zeta.
  set (s0 := set_base s _).
  assert (Hp0 : mParserThreadPoolObj s0 = Some p) by exact Hp.
  assert (Hkeep : exists s' ts,
            bind (Ok s0) (fun s1 => Ok (ERROR_OK, s1)) = Ok (ERROR_OK, s')
            /\ mParserThreadPoolObj s' =
                 Some (mkPool (nThreads p) (interval p) (pending p ++ ts))
            /\ (List.length ts <= 1)%nat).
  { exists s0, []; cbn [bind List.length]; rewrite pool_eta.
    repeat split; [assumption|lia]. }
  assert (Hadd : forall t, exists s' ts,
            bind (enqueue s0 t) (fun s1 => Ok (ERROR_OK, s1)) = Ok (ERROR_OK, s')
            /\ mParserThreadPoolObj s' =
                 Some (mkPool (nThreads p) (interval p) (pending p ++ ts))
            /\ (List.length ts <= 1)%nat).
  { intros t; rewrite (enqueue_present _ p t Hp0); cbn [bind].
    eexists; exists [t]; repeat split; cbn; lia. }
  destruct (strstr pCmd "GPGGA");
    [destruct (fst (GetGPGGA (base s0)) =? ERROR_OK); [apply Hadd|apply Hkeep]|].
  destruct (strstr pCmd "GPGSV");
    [destruct (fst (GetGPGSV (base s0)) =? ERROR_OK); [apply Hadd|apply Hkeep]|].
  destruct (strstr pCmd "GPGSA");
    [destruct (fst (GetGPGSA (base s0)) =? ERROR_OK); [apply Hadd|apply Hkeep]|].
  destruct (strstr pCmd "GPRMC");
    [destruct (fst (GetGPRMC (base s0)) =? ERROR_OK); [apply Hadd|apply Hkeep]|].
  apply Hkeep.
Qed.

Lemma rx_all_at_most_one_each : forall cmds (s : ParserNmea) p,
  mParserThreadPoolObj s = Some p ->
  exists s' ts,
    rx_all cmds s = Ok s'
    /\ mParserThreadPoolObj s' =
         Some (mkPool (nThreads p) (interval p) (pending p ++ ts))
    /\ (List.length ts <= List.length cmds)%nat.
Proof.
  induction cmds as [|[[pCmd pData] checksum] rest IH]; intros s p Hp; cbn [rx_all].
  - exists s, []; rewrite pool_eta; repeat split; [assumption|cbn; lia].
  - destruct (ProcessRxCommand_at_most_one s pCmd pData checksum p Hp)
      as (s1 & ts1 & H1 & Q1 & L1).
    rewrite H1; cbn [bind].
    destruct (IH s1 _ Q1) as (s2 & ts2 & H2 & Q2 & L2).
    exists s2, (ts1 ++ ts2); split; [assumption|]; split.
    + rewrite Q2; cbn; rewrite app_assoc; reflexivity.
    + rewrite length_app; cbn [List.length]; lia.
Qed.

(** X16: scanning a buffer with a queue in place never faults and works
    on the decoder and the queue alone: it queues at most one task per
    sentence the decoder framed, behind the tasks already pending, hands
    back the decoder's error code, invokes no callback and leaves
    FixState, the read offset and the file handle alone.  Tasks queued
    before an error stay queued. *)
Theorem ProcessNMEABuffer_only_queues :
  forall (s : ParserNmea) (buf : list Byte.byte) p,
  mParserThreadPoolObj s = Some p ->
  exists s' ts,
    ProcessNMEABuffer s buf = Ok (snd (frames (base s) buf), s')
    /\ mParserThreadPoolObj s' =
         Some (mkPool (nThreads p) (interval p) (pending p ++ ts))
    /\ (List.length ts <= List.length (snd (fst (frames (base s) buf))))%nat
    /\ delivered s' = delivered s
    /\ mGpsData s' = mGpsData s
    /\ mSeekOffset s' = mSeekOffset s
    /\ mNmeaFp s' = mNmeaFp s
    /\ clock_reads s' = clock_reads s.
Proof.
  intros s buf p Hp.
  destruct (ProcessNMEABuffer_frame s buf) as [(nErr & s1 & H1 & E1 & F1)|H1].
  - unfold ProcessNMEABuffer in *.
    destruct (frames (base s) buf) as [[b cmds] nErr0]; cbn [fst snd] in *.
    destruct (rx_all_at_most_one_each cmds (set_base s b) p Hp)
      as (s2 & ts & H2 & Q2 & L2).
    rewrite H2 in *; cbn [bind] in *.
    injection H1 as _ <-.
    destruct F1 as (Ffp & Foff & _ & Fgps & _ & Fdel & Fclk & _).
    exists s2, ts; repeat split; assumption.
  - unfold ProcessNMEABuffer in *.
    destruct (frames (base s) buf) as [[b cmds] nErr0].
    destruct (rx_all_at_most_one_each cmds (set_base s b) p Hp)
      as (s2 & ts & H2 & _).
    rewrite H2 in H1; discriminate.
Qed.

(** ** Running a queued task *)

Lemma sendNmeaUpdates_some : forall e text (s : ParserNmea),
  sendNmeaUpdates e (Some text) s =
    set_clock_reads
      (set_delivered s (delivered s ++ [raw_of e text (clock_reads s)]))
      (S (clock_reads s)).
Proof. intros e text s; destruct s; reflexivity. Qed.

(** X17: a task that runs changes nothing of the parser but FixState,
    the delivered events and the clock count.  FixState is written by
    GGA and RMC tasks only: GGA sets latitude, longitude, altitude and
    horizontal accuracy and keeps speed and direction, RMC sets
    latitude, longitude, altitude, speed and direction and keeps the
    horizontal accuracy; GSV and GSA tasks leave it alone. *)
Theorem run_task_writes_FixState_only :
  forall e (t : task) (s s' : ParserNmea),
  run_task e t s = Ok s' ->
  (base s' = base s /\ mNmeaFp s' = mNmeaFp s /\ mSeekOffset s' = mSeekOffset s
   /\ mStopParser s' = mStopParser s
   /\ mParserThreadPoolObj s' = mParserThreadPoolObj s
   /\ watch s' = watch s /\ freads s' = freads s)
  /\ mGpsData s' =
       match t with
       | TaskGGA g _ =>
           mk_gps_data (gga_dLatitude g) (gga_dLongitude g) (gga_dAltitudeMSL g)
                       (speed (mGpsData s)) (direction (mGpsData s)) (gga_dHDOP g)
       | TaskRMC r _ =>
           mk_gps_data (rmc_dLatitude r) (rmc_dLongitude r) (rmc_dAltitudeMSL r)
                       (PrimFloat.mul (rmc_dSpeedKnots r) 0.514%float)
                       (rmc_dTrackAngle r) (horizAccuracy (mGpsData s))
       | TaskGSV _ _ | TaskGSA _ _ => mGpsData s
       end.
Proof.
  intros e t s s' Hrun; destruct t as [g text|v text|a text|r text];
    cbn [run_task] in Hrun.
  - rewrite SetGpsGGA_Data_spec in Hrun; injection Hrun as <-.
    destruct s; repeat split.
  - unfold SetGpsGSV_Data in Hrun.
    destruct (sv_copy_loop _ _ _ _) as [sv|f]; [|discriminate].
    cbn [bind snd] in Hrun; rewrite sendNmeaUpdates_some in Hrun.
    injection Hrun as <-; destruct s; repeat split.
  - unfold SetGpsGSA_Data in Hrun; cbn [snd] in Hrun.
    rewrite sendNmeaUpdates_some in Hrun.
    injection Hrun as <-; destruct s; repeat split.
  - rewrite SetGpsRMC_Data_spec in Hrun; injection Hrun as <-.
    destruct s; repeat split.
Qed.

(** X18: what a task delivers.  The raw-sentence event comes last, with
    the task's text, the length of that text and the last clock reading
    the task took.  Before it a GGA or RMC task delivers one location
    event, which is the snapshot of the whole FixState after the task's
    update (the direction is not part of it) at the clock reading before,
    a GSV task one satellite event, a GSA task nothing. *)
Theorem run_task_events : forall e (t : task) (s s' : ParserNmea),
  run_task e t s = Ok s' ->
  exists front,
    delivered s' =
      delivered s ++ front ++ [raw_of e (task_text t) (Nat.pred (clock_reads s'))]
    /\ match t with
       | TaskGGA _ _ | TaskRMC _ _ =>
           front = [location_of e (mGpsData s') (clock_reads s)]
           /\ clock_reads s' = S (S (clock_reads s))
       | TaskGSV _ _ =>
           (exists sv, front = [parser_sv_cb sv])
           /\ clock_reads s' = S (clock_reads s)
       | TaskGSA _ _ => front = [] /\ clock_reads s' = S (clock_reads s)
       end.
Proof.
  intros e t s s' Hrun; destruct t as [g text|v text|a text|r text];
    cbn [run_task] in Hrun; cbn [task_text].
  - rewrite SetGpsGGA_Data_spec in Hrun; injection Hrun as <-; destruct s.
    eexists; split; [|split; reflexivity]; reflexivity.
  - unfold SetGpsGSV_Data in Hrun.
    destruct (sv_copy_loop _ _ _ _) as [sv|f]; [|discriminate].
    cbn [bind snd] in Hrun; rewrite sendNmeaUpdates_some in Hrun.
    injection Hrun as <-; destruct s.
    exists [parser_sv_cb sv]; cbn.
    rewrite <- app_assoc; repeat split.
    exists sv; reflexivity.
  - unfold SetGpsGSA_Data in Hrun; cbn [snd] in Hrun.
    rewrite sendNmeaUpdates_some in Hrun.
    injection Hrun as <-; destruct s.
    exists []; cbn; repeat split.
  - rewrite SetGpsRMC_Data_spec in Hrun; injection Hrun as <-; destruct s.
    eexists; split; [|split; reflexivity]; reflexivity.
Qed.

(** ** Satellites in view *)

Lemma nth_error_repeat_inside : forall (A : Type) (x : A) n j,
  (j < n)%nat -> nth_error (repeat x n) j = Some x.
Proof.
  intros A x n; induction n as [|n IH]; intros [|j] Hj; cbn; try lia;
    [reflexivity|apply IH; lia].
Qed.

(** X19: when the announced count is at most the capacity of [sv_list]
    and the decoded record holds that many satellites, [SetGpsGSV_Data]
    delivers one satellite event and then the raw sentence.  The event
    reports the announced count, the first so many entries are the
    decoded satellites in order, every entry behind them is zero, and
    FixState is not touched. *)
Theorem SetGpsGSV_Data_within_capacity :
  forall e (gsvData : GSV_DATA_T) text (s : ParserNmea),
  0 <= nSatsInView gsvData <= Z.of_nat GPS_MAX_SVS ->
  nSatsInView gsvData <= Z.of_nat (List.length (SatInfo gsvData)) ->
  exists sv s',
    SetGpsGSV_Data e gsvData text s = Ok (false, s')
    /\ delivered s' =
         delivered s ++ [parser_sv_cb sv; raw_of e text (clock_reads s)]
    /\ mGpsData s' = mGpsData s
    /\ num_svs sv = nSatsInView gsvData
    /\ List.length (sv_list sv) = GPS_MAX_SVS
    /\ (forall j, (j < Z.to_nat (nSatsInView gsvData))%nat ->
          nth_error (sv_list sv) j =
            option_map sv_of_sat (nth_error (SatInfo gsvData) j))
    /\ (forall j, (Z.to_nat (nSatsInView gsvData) <= j < GPS_MAX_SVS)%nat ->
          nth_error (sv_list sv) j = Some GpsSvInfo_zero).
Proof.
  intros e gsvData text s Hcap Hsat; unfold SetGpsGSV_Data.
  cbn [num_svs sv_list GpsSvStatus_zero]; rewrite Z.sub_0_r.
  set (sv0 := mkGpsSvStatus _ _).
  assert (Hlen0 : List.length (sv_list sv0) = GPS_MAX_SVS)
    by (subst sv0; cbn [sv_list]; apply repeat_length).
  destruct (sv_copy_loop_inside (Z.to_nat (nSatsInView gsvData)) gsvData O sv0)
    as (sv & HL & Hnum & Hlen & Hin & Hout); [lia|lia|].
  change 0 with (Z.of_nat O); rewrite HL; cbn [bind].
  rewrite sendNmeaUpdates_some.
  eexists sv, _; split; [reflexivity|].
  destruct s; cbn.
  rewrite <- app_assoc; repeat split.
  - exact Hnum.
  - congruence.
  - intros j Hj; apply Hin; lia.
  - intros j Hj; rewrite Hout by lia; subst sv0; cbn [sv_list].
    apply nth_error_repeat_inside; lia.
Qed.

(** X20: a count that is zero or negative copies nothing, and it is
    passed on as it is: the satellite event carries the announced count,
    negative or not, with a list of zero entries. *)
Theorem SetGpsGSV_Data_nonpositive_count :
  forall e (gsvData : GSV_DATA_T) text (s : ParserNmea),
  nSatsInView gsvData <= 0 ->
  SetGpsGSV_Data e gsvData text s =
    Ok (false,
        sendNmeaUpdates e (Some text)
          (deliver s (parser_sv_cb
                        (mkGpsSvStatus (nSatsInView gsvData)
                           (repeat GpsSvInfo_zero GPS_MAX_SVS))))).
Proof.
  intros e gsvData text s Hn; unfold SetGpsGSV_Data.
  cbn [num_svs sv_list GpsSvStatus_zero]; rewrite Z.sub_0_r.
  replace (Z.to_nat (nSatsInView gsvData)) with O by lia.
  reflexivity.
Qed.

(** ** Start, then stop *)

(** X22: a session that was started and read to the end of the file,
    then stopped, leaves every member of the parser as the constructor
    set it (the decoder apart): no handle, offset 0, no stop pending, no
    queue, FixState zero, no watch.  From the two calls the consumer has
    seen SessionBegin and then SessionEnd, nothing else. *)
Theorem start_then_stop_returns_to_idle :
  forall e (s : ParserNmea) data keyfile,
  decoder_never_fails ->
  nmea_file e = Some data ->
  config_file e = Some keyfile ->
  mStopParser s = false ->
  exists s1,
    startParsing e s = Ok (false, s1)
    /\ fst (stopParsing s1) = true
    /\ mNmeaFp (snd (stopParsing s1)) = None
    /\ mSeekOffset (snd (stopParsing s1)) = 0
    /\ mStopParser (snd (stopParsing s1)) = false
    /\ mParserThreadPoolObj (snd (stopParsing s1)) = None
    /\ mGpsData (snd (stopParsing s1)) = gps_data_zero
    /\ watch (snd (stopParsing s1)) = false
    /\ delivered (snd (stopParsing s1)) =
         delivered s ++ [SessionBegin; SessionEnd].
Proof.
  intros e s data keyfile Hok Hfile Hcfg Hstop.
  destruct (startParsing_pass_general e s data keyfile Hfile Hcfg Hstop)
    as (s1 & log & ts & HS & Rstop & Rpool & _ & Rdel & _ & _ & _ & _ & _ & Rend).
  destruct Rend as [(Rfp & _)|(fp' & log0 & chunk & b & _ & _ & _ & Herr & _)];
    [|exfalso; apply Herr, Hok].
  exists s1; split; [exact HS|].
  destruct s1 as [b1 fp1 off1 stop1 pool1 d1 w1 out1 n1 log1].
  cbn [mNmeaFp mStopParser delivered] in Rfp, Rstop, Rdel.
  subst fp1 stop1 out1; unfold stopParsing.
  destruct pool1; cbn; rewrite <- app_assoc; repeat split.
Qed.

(** X23: stopping is not silent the second time.  A second
    [stopParsing] reports SessionEnd once more and resets the decoder
    once more; every other member stays as the first stop left it, and
    the stop flag is not raised by it. *)
Theorem stopParsing_twice : forall s : ParserNmea,
  let s1 := snd (stopParsing s) in
  let s2 := snd (stopParsing s1) in
  delivered s2 = delivered s ++ [SessionEnd; SessionEnd]
  /\ base s2 = ResetData (ResetData (base s))
  /\ mStopParser s2 = mStopParser s1
  /\ mNmeaFp s2 = None /\ mNmeaFp s1 = None
  /\ mParserThreadPoolObj s2 = None /\ mParserThreadPoolObj s1 = None
  /\ watch s2 = false /\ watch s1 = false
  /\ mSeekOffset s2 = 0
  /\ mGpsData s2 = gps_data_zero
  /\ clock_reads s2 = clock_reads s
  /\ freads s2 = freads s.
Proof.
  intros [b fp off stop pool d w out n log]; unfold stopParsing.
  destruct pool, fp; cbn; rewrite <- app_assoc; repeat split.
Qed.

(** X24: a start that fails for want of the configuration has opened the
    file and keeps it open.  The stop that follows finds the handle and
    raises the stop flag; since no loop is running, the flag stays up,
    and the next start, with file and configuration present, uses it up:
    it returns true and reads nothing.  Only the start after that one
    parses the file. *)
Theorem failed_start_then_stop_arms_next_start :
  forall e1 e2 (s : ParserNmea) data1 data2 keyfile,
  nmea_file e1 = Some data1 ->
  config_file e1 = None ->
  nmea_file e2 = Some data2 ->
  config_file e2 = Some keyfile ->
  exists s1 s3,
    startParsing e1 s = Ok (false, s1)
    /\ mNmeaFp s1 = Some (mkFILE data1 0 false)
    /\ mStopParser (snd (stopParsing s1)) = true
    /\ startParsing e2 (snd (stopParsing s1)) = Ok (true, s3)
    /\ freads s3 = freads s
    /\ mSeekOffset s3 = 0
    /\ mStopParser s3 = false
    /\ delivered s3 = delivered s ++ [SessionBegin; SessionEnd; SessionBegin].
Proof.
  intros e1 e2 s data1 data2 keyfile Hfile1 Hcfg1 Hfile2 Hcfg2.
  rewrite (startParsing_no_config e1 s data1 Hfile1 Hcfg1).
  eexists; edestruct (startParsing_stop_pending e2) as
    (s3 & HS & _ & Rstop & Roff & _ & _ & _ & Rdel & _ & Rlog);
    [exact Hfile2|exact Hcfg2| |exists s3].
  2: { split; [reflexivity|]; split; [reflexivity|].
       split; [|split; [exact HS|]].
       - destruct s as [b fp off stop pool d w out n log]; unfold stopParsing.
         destruct pool; reflexivity.
       - rewrite Rlog, Roff, Rstop, Rdel.
         destruct s as [b fp off stop pool d w out n log]; unfold stopParsing.
         destruct pool; cbn; rewrite <- !app_assoc; repeat split. }
  destruct s as [b fp off stop pool d w out n log]; unfold stopParsing.
  destruct pool; reflexivity.
Qed.

End Further.

(** * The properties on concrete inputs *)

Import Sample.

Lemma sample_decoder_never_fails : decoder_never_fails.
Proof. intros b buf; reflexivity. Qed.

Lemma sample_waiting : awaiting_notification Sample.waiting (mkPool 1 200 []).
Proof. repeat split; discriminate. Qed.

(** Two floats that the comparison tells apart are different. *)
Lemma float_neq : forall x y : float, PrimFloat.eqb x y = false ->
  PrimFloat.eqb x x = true -> x <> y.
Proof. intros x y Hxy Hxx Heq; subst y; congruence. Qed.



(** C2, counterexample: a session that waits at offset 600 with a fix
    from a GGA sentence; a second [startParsing] returns false, reports
    SessionBegin again, puts altitude and accuracy back to -1 and reads
    the file again at offset 600. *)
Lemma C2_counterexample :
  exists s',
    startParsing Sample.env_ok Sample.waiting = Ok (false, s')
    /\ delivered Sample.waiting = [SessionBegin]
    /\ delivered s' = [SessionBegin; SessionBegin]
    /\ altitude (mGpsData Sample.waiting) = 545.4%float
    /\ altitude (mGpsData s') = (-1)%float
    /\ horizAccuracy (mGpsData s') = (-1)%float
    /\ freads s' = freads Sample.waiting ++ [(600, [])]
    /\ s' <> Sample.waiting.
Proof.
  eexists; split; [vm_compute; reflexivity|].
  repeat split.
  intros Heq; apply (f_equal delivered) in Heq; discriminate Heq.
Qed.

Lemma C2_witness :
  exists s' first rest ts,
    startParsing Sample.env_grown Sample.waiting = Ok (false, s')
    /\ delivered s' = delivered Sample.waiting ++ [SessionBegin]
    /\ mGpsData s' =
         mk_gps_data (latitude (mGpsData Sample.waiting))
                     (longitude (mGpsData Sample.waiting))
                     (-1)%float (-1)%float (-1)%float (-1)%float
    /\ freads s' = freads Sample.waiting ++ (mSeekOffset Sample.waiting, first) :: rest
    /\ mParserThreadPoolObj s' =
         Some (mkPool (nThreads (mkPool 1 200 [])) (interval (mkPool 1 200 []))
                      (pending (mkPool 1 200 []) ++ ts))
    /\ mSeekOffset Sample.waiting <= mSeekOffset s'
    /\ watch s' = true
    /\ ((mNmeaFp s' = None
         /\ first ++ List.concat (map snd rest) =
              skipn (Z.to_nat (mSeekOffset Sample.waiting)) Sample.grown
         /\ mSeekOffset s' =
              mSeekOffset Sample.waiting
              + Z.of_nat (List.length
                            (skipn (Z.to_nat (mSeekOffset Sample.waiting)) Sample.grown)))
        \/ (exists fp' accepted chunk b,
              mNmeaFp s' = Some fp'
              /\ (mSeekOffset Sample.waiting, first) :: rest =
                   accepted ++ [(mSeekOffset s', chunk)]
              /\ snd (frames b chunk) <> ERROR_OK
              /\ mSeekOffset s' = mSeekOffset Sample.waiting + bytes_of accepted)).
Proof.
  refine (C2_start_while_running_restarts Sample.env_grown Sample.waiting
            Sample.grown Sample.keyfile (mkPool 1 200 []) eq_refl eq_refl _).
  repeat split; discriminate.
Defined.

(** C3, counterexample: the first session start on a new object; after
    it latitude and longitude are 0, not -1. *)
Lemma C3_counterexample :
  exists s',
    startParsing Sample.env_ok Sample.fresh = Ok (false, s')
    /\ latitude (mGpsData s') = 0%float
    /\ longitude (mGpsData s') = 0%float
    /\ latitude (mGpsData s') <> (-1)%float
    /\ longitude (mGpsData s') <> (-1)%float.
Proof.
  eexists; split; [vm_compute; reflexivity|].
  repeat split; cbn; apply float_neq; reflexivity.
Qed.

(** C6, counterexample: a GGA sentence with altitude 545.4 and then an
    RMC sentence, whose record has altitude 0; the second location event
    carries altitude 0, not the 545.4 of the GGA sentence. *)
Lemma C6_counterexample :
  let s1 := snd (SetGpsGGA_Data Sample.env_ok Sample.gga "$GPGGA,1*00" Sample.fresh) in
  let s2 := snd (SetGpsRMC_Data Sample.env_ok Sample.rmc "$GPRMC,2*00" s1) in
  exists loc1 raw1 loc2 raw2,
    delivered s2 = [parser_loc_cb loc1; raw1; parser_loc_cb loc2; raw2]
    /\ loc_altitude loc1 = 545.4%float
    /\ loc_altitude loc2 = 0%float
    /\ loc_altitude loc2 <> loc_altitude loc1.
Proof.
  cbv zeta; do 4 eexists; split; [vm_compute; reflexivity|].
  repeat split; cbn; apply float_neq; reflexivity.
Qed.

(** C7, counterexample: a ZDA sentence while a session runs; nothing is
    queued for it, no callback is invoked, and the worker finds nothing
    to run. *)
Lemma C7_counterexample :
  ProcessRxCommand Sample.waiting "GPZDA" "201530.00,04,07,2002,00,00" "60"
    = Ok (ERROR_OK, Sample.waiting)
  /\ mParserThreadPoolObj Sample.waiting = Some (mkPool 1 200 [])
  /\ worker_step Sample.env_ok Sample.waiting = Ok Sample.waiting.
Proof. repeat split. Qed.

Lemma C7_witness :
  exists s',
    ProcessRxCommand Sample.waiting "GPZDA" "201530.00,04,07,2002,00,00" "60"
      = Ok (ERROR_OK, s')
    /\ s' = set_base Sample.waiting
              (CNMEAParser_ProcessRxCommand (base Sample.waiting) "GPZDA"
                 "201530.00,04,07,2002,00,00")
    /\ mParserThreadPoolObj s' = mParserThreadPoolObj Sample.waiting
    /\ delivered s' = delivered Sample.waiting.
Proof.
  exact (C7_unrecognized_sentence_emits_nothing Sample.waiting "GPZDA"
           "201530.00,04,07,2002,00,00" "60" eq_refl eq_refl eq_refl eq_refl).
Defined.

Lemma C8_witness :
  exists s',
    startParsing Sample.env_no_file Sample.fresh = Ok (false, s')
    /\ s' = set_mNmeaFp Sample.fresh None
    /\ mGpsData s' = mGpsData Sample.fresh
    /\ delivered s' = delivered Sample.fresh
    /\ mParserThreadPoolObj s' = mParserThreadPoolObj Sample.fresh
    /\ watch s' = watch Sample.fresh
    /\ mSeekOffset s' = mSeekOffset Sample.fresh
    /\ freads s' = freads Sample.fresh.
Proof.
  exact (C8_missing_file_fails_cleanly Sample.env_no_file Sample.fresh eq_refl).
Defined.

(** With three satellites announced the copy stays inside the array. *)
Example SetGpsGSV_Data_three_satellites :
  exists sv raw,
    SetGpsGSV_Data Sample.env_ok (Sample.gsv 3) "$GPGSV,3*00" Sample.fresh
      = Ok (false, set_clock_reads
                     (set_delivered Sample.fresh [parser_sv_cb sv; raw]) 1%nat)
    /\ num_svs sv = 3
    /\ firstn 3 (sv_list sv) =
         [mkGpsSvInfo 1 40 45%float 90%float;
          mkGpsSvInfo 2 40 45%float 90%float;
          mkGpsSvInfo 3 40 45%float 90%float]
    /\ List.length (sv_list sv) = 32%nat.
Proof. do 2 eexists; split; [vm_compute; reflexivity|repeat split]. Qed.

Lemma C9_witness :
  SetGpsGSV_Data Sample.env_ok (Sample.gsv 33) "$GPGSV,33*00" Sample.fresh
    = Fault OutOfBounds.
Proof.
  refine (C9_gsv_copy_not_capped Sample.env_ok (Sample.gsv 33) "$GPGSV,33*00"
            Sample.fresh _).
  reflexivity.
Defined.

Lemma offset_reset_and_resume_witness :
  mSeekOffset (snd (stopParsing Sample.waiting)) = 0
  /\ (forall fuel (s0 : ParserNmea) fp p0,
        mNmeaFp s0 = Some fp -> feof fp = false -> mStopParser s0 = false ->
        mParserThreadPoolObj s0 = Some p0 ->
        exists s1,
          read_loop (S fuel) s0 = read_loop fuel s1
          /\ mSeekOffset s1 =
               mSeekOffset s0 + Z.of_nat (List.length (fst (fread chunk_bytes fp)))
          /\ freads s1 = freads s0 ++ [(fpos fp, fst (fread chunk_bytes fp))])
  /\ (exists s' first log,
        startParsing Sample.env_grown (snd (stopParsing Sample.waiting)) = Ok (false, s')
        /\ freads s' = freads Sample.waiting ++ (0, first) :: log
        /\ first ++ List.concat (map snd log) = Sample.grown
        /\ mSeekOffset s' = Z.of_nat (List.length Sample.grown))
  /\ (exists s' first log,
        parser_inotify_handler Sample.env_grown modified (Some nmea_file_name)
          Sample.waiting = Ok s'
        /\ freads s' = freads Sample.waiting ++ (Z.of_nat 600, first) :: log
        /\ first ++ List.concat (map snd log) = skipn 600 Sample.grown
        /\ mSeekOffset s' =
             Z.of_nat 600 + Z.of_nat (List.length (skipn 600 Sample.grown))).
Proof.
  refine (offset_reset_and_resume Sample.env_grown Sample.waiting Sample.grown
            Sample.keyfile (mkPool 1 200 []) 600%nat modified
            (fun b buf => eq_refl) eq_refl eq_refl _ eq_refl _).
  - repeat split; discriminate.
  - discriminate.
Defined.

(** The state that [startParsing] leaves behind when the tracked file is
    there and the configuration is not: the handle is open. *)
Example failed_start_leaves_handle_open :
  startParsing Sample.env_no_config Sample.fresh = Ok (false, Sample.leaked)
  /\ mNmeaFp Sample.leaked = Some (mkFILE Sample.content 0 false).
Proof. split; reflexivity. Qed.

(** C4 at that state: stop, then start with file and configuration
    present. *)
Lemma C4_witness :
  mSeekOffset (snd (stopParsing Sample.leaked)) = 0
  /\ mStopParser (snd (stopParsing Sample.leaked)) = true
  /\ exists s',
       startParsing Sample.env_ok (snd (stopParsing Sample.leaked)) = Ok (true, s')
       /\ freads s' = freads Sample.leaked
       /\ mSeekOffset s' = 0
       /\ mNmeaFp s' = None
       /\ watch s' = false.
Proof.
  exact (C4_stop_with_open_handle_blocks_reparse Sample.env_ok Sample.leaked
           (mkFILE Sample.content 0 false) Sample.content Sample.keyfile
           eq_refl eq_refl eq_refl).
Defined.

(** The whole sequence from a new parser: a start that fails after it
    opened the file (here for want of the configuration) leaves the
    handle open; the stop that follows then raises the stop flag, and the
    next start uses the flag up and returns true before its first read. *)
Example stop_after_failed_start_leaves_stop_pending :
  exists s1 s3,
    startParsing Sample.env_no_config Sample.fresh = Ok (false, s1)
    /\ mNmeaFp s1 = Some (mkFILE Sample.content 0 false)
    /\ mStopParser (snd (stopParsing s1)) = true
    /\ mSeekOffset (snd (stopParsing s1)) = 0
    /\ startParsing Sample.env_ok (snd (stopParsing s1)) = Ok (true, s3)
    /\ freads s3 = []
    /\ mStopParser s3 = false.
Proof.
  do 2 eexists; split; [vm_compute; reflexivity|].
  split; [reflexivity|]; split; [reflexivity|]; split; [reflexivity|].
  split; [vm_compute; reflexivity|]; split; reflexivity.
Qed.

(** * The further properties on concrete inputs *)

(** A parser on which a stop is pending. *)
Lemma X3_witness :
  exists s',
    startParsing Sample.env_ok (set_mStopParser Sample.fresh true) = Ok (true, s')
    /\ mStopParser s' = false
    /\ mNmeaFp s' = None
    /\ freads s' = freads (set_mStopParser Sample.fresh true)
    /\ mSeekOffset s' = mSeekOffset (set_mStopParser Sample.fresh true)
    /\ watch s' = watch (set_mStopParser Sample.fresh true)
    /\ delivered s' = delivered (set_mStopParser Sample.fresh true) ++ [SessionBegin]
    /\ mGpsData s' = mGpsData (init (set_mStopParser Sample.fresh true)).
Proof.
  exact (startParsing_consumes_pending_stop Sample.env_ok
           (set_mStopParser Sample.fresh true) Sample.content Sample.keyfile
           eq_refl eq_refl eq_refl).
Defined.

Lemma X6_witness :
  exists b s' ts,
    startParsing Sample.env_no_latency Sample.waiting = Ok (b, s')
    /\ mParserThreadPoolObj s' =
         Some (mkPool (nThreads (mkPool 1 200 [])) (interval (mkPool 1 200 []))
                      (pending (mkPool 1 200 []) ++ ts)).
Proof.
  exact (startParsing_keeps_queue Sample.env_no_latency Sample.waiting
           (mkPool 1 200 []) eq_refl).
Defined.

Lemma X7_witness :
  exists s' first rest,
    startParsing Sample.env_grown Sample.waiting = Ok (false, s')
    /\ freads s' = freads Sample.waiting ++ (mSeekOffset Sample.waiting, first) :: rest
    /\ contiguous (mSeekOffset Sample.waiting)
         ((mSeekOffset Sample.waiting, first) :: rest)
    /\ chunked ((mSeekOffset Sample.waiting, first) :: rest)
    /\ bytes_of ((mSeekOffset Sample.waiting, first) :: rest) <=
         Z.of_nat (List.length
                     (skipn (Z.to_nat (mSeekOffset Sample.waiting)) Sample.grown)).
Proof.
  refine (startParsing_reads_contiguous_chunks Sample.env_grown Sample.waiting
            Sample.grown Sample.keyfile eq_refl eq_refl eq_refl _).
  discriminate.
Defined.

(** With the decoder that rejects its second scan, the pass over the 600
    bytes stops at offset 512 with the handle open. *)
Lemma X8_witness :
  exists s' log,
    @startParsing Rejecting.decoder Sample.constants Sample.env_ok Rejecting.fresh
      = Ok (false, s')
    /\ freads s' = freads Rejecting.fresh ++ log
    /\ ((mNmeaFp s' = None
         /\ watch s' = true
         /\ List.concat (map snd log) =
              skipn (Z.to_nat (mSeekOffset Rejecting.fresh)) Sample.content
         /\ mSeekOffset s' = mSeekOffset Rejecting.fresh + bytes_of log)
        \/ (exists fp' log0 chunk b,
              mNmeaFp s' = Some fp'
              /\ watch s' = watch Rejecting.fresh
              /\ log = log0 ++ [(mSeekOffset s', chunk)]
              /\ snd (@frames Rejecting.decoder b chunk) <> ERROR_OK
              /\ mSeekOffset s' = mSeekOffset Rejecting.fresh + bytes_of log0)).
Proof.
  refine (@startParsing_counts_accepted_chunks_only Rejecting.decoder
            Sample.constants Sample.env_ok Rejecting.fresh Sample.content
            Sample.keyfile eq_refl eq_refl eq_refl _).
  discriminate.
Defined.

Example rejected_chunk_is_read_again :
  exists s1 s2,
    @startParsing Rejecting.decoder Sample.constants Sample.env_ok Rejecting.fresh
      = Ok (false, s1)
    /\ mSeekOffset s1 = 512
    /\ map fst (freads s1) = [0; 512]
    /\ @startParsing Rejecting.decoder Sample.constants Sample.env_ok s1
         = Ok (false, s2)
    /\ map fst (freads s2) = [0; 512; 512]
    /\ mSeekOffset s2 = 600.
Proof.
  do 2 eexists; split; [vm_compute; reflexivity|].
  split; [reflexivity|]; split; [reflexivity|].
  split; [vm_compute; reflexivity|]; split; reflexivity.
Qed.

Lemma X9_witness :
  exists s' front last,
    startParsing Sample.env_grown Sample.fresh = Ok (false, s')
    /\ freads s' = freads Sample.fresh ++ front ++ [last]
    /\ List.length front =
         (List.length (skipn (Z.to_nat (mSeekOffset Sample.fresh)) Sample.grown)
          / chunk_bytes)%nat
    /\ Forall (fun c => List.length (snd c) = chunk_bytes) front
    /\ List.length (snd last) =
         (List.length (skipn (Z.to_nat (mSeekOffset Sample.fresh)) Sample.grown)
          mod chunk_bytes)%nat.
Proof.
  refine (startParsing_read_count Sample.env_grown Sample.fresh Sample.grown
            Sample.keyfile (fun b buf => eq_refl) eq_refl eq_refl eq_refl _).
  discriminate.
Defined.

(** The session waits at offset 600 and the file holds 600 bytes. *)
Lemma X10_witness :
  exists s',
    startParsing Sample.env_ok Sample.waiting = Ok (false, s')
    /\ freads s' = freads Sample.waiting ++ [(mSeekOffset Sample.waiting, [])]
    /\ mSeekOffset s' = mSeekOffset Sample.waiting.
Proof.
  refine (startParsing_on_shorter_file Sample.env_ok Sample.waiting Sample.content
            Sample.keyfile eq_refl eq_refl eq_refl _).
  vm_compute; discriminate.
Defined.

Lemma X11_witness :
  parser_inotify_handler Sample.env_grown modified (Some "gps.nmea.tmp")
    Sample.waiting = Ok Sample.waiting.
Proof.
  refine (parser_inotify_handler_ignores_other_events Sample.env_grown modified
            (Some "gps.nmea.tmp") Sample.waiting (or_introl _)).
  discriminate.
Defined.

Lemma X12_witness :
  exists s',
    parser_inotify_handler Sample.env_no_file modified (Some nmea_file_name)
      Sample.waiting = Ok s'
    /\ s' = set_mNmeaFp (set_watch Sample.waiting false) None
    /\ watch s' = false
    /\ mNmeaFp s' = None
    /\ delivered s' = delivered Sample.waiting
    /\ mSeekOffset s' = mSeekOffset Sample.waiting.
Proof.
  refine (parser_inotify_handler_file_gone Sample.env_no_file modified
            Sample.waiting eq_refl _).
  discriminate.
Defined.

Lemma X13_witness :
  ProcessRxCommand Sample.waiting "GPGGA" "123519,4807.038,N" "47" =
    Ok (ERROR_OK,
        set_mParserThreadPoolObj Sample.waiting
          (Some (mkPool 1 200
                   [TaskGGA Sample.gga "$GPGGA,123519,4807.038,N*47"]))).
Proof.
  refine (proj1 (ProcessRxCommand_queues_recognized Sample.waiting "GPGGA"
                   "123519,4807.038,N" "47" (mkPool 1 200 []) eq_refl) _ eq_refl).
  discriminate.
Defined.

Lemma X14_witness :
  @ProcessRxCommand Broken.decoder Broken.fresh "GPGGA" "123519,4807.038,N" "47"
    = Ok (ERROR_OK, Broken.fresh).
Proof.
  refine (proj1 (@ProcessRxCommand_drops_undecodable Broken.decoder Broken.fresh
                   "GPGGA" "123519,4807.038,N" "47") _ _); discriminate.
Defined.

Lemma X15_witness :
  ProcessRxCommand Sample.waiting "GNGGA" "123519,4807.038,N" "59" =
    Ok (ERROR_OK,
        set_base Sample.waiting
          (CNMEAParser_ProcessRxCommand (base Sample.waiting) "GNGGA"
             "123519,4807.038,N")).
Proof.
  refine (ProcessRxCommand_only_GP_talker Sample.waiting "GNGGA"
            "123519,4807.038,N" "59" _ _ _ _ _); [apply le_n|..]; discriminate.
Defined.

Lemma X16_witness :
  exists s' ts,
    @ProcessNMEABuffer Scripted.decoder Scripted.reading [Byte.x24]
      = Ok (snd (@frames Scripted.decoder (base Scripted.reading) [Byte.x24]), s')
    /\ mParserThreadPoolObj s' =
         Some (mkPool 1 200 ([TaskGSA Sample.gsa "$GPGSA,A,3*00"] ++ ts))
    /\ (List.length ts <=
        List.length (snd (fst (@frames Scripted.decoder (base Scripted.reading)
                                 [Byte.x24]))))%nat
    /\ delivered s' = delivered Scripted.reading
    /\ mGpsData s' = mGpsData Scripted.reading
    /\ mSeekOffset s' = mSeekOffset Scripted.reading
    /\ mNmeaFp s' = mNmeaFp Scripted.reading
    /\ clock_reads s' = clock_reads Scripted.reading.
Proof.
  exact (@ProcessNMEABuffer_only_queues Scripted.decoder Scripted.reading
           [Byte.x24] (mkPool 1 200 [TaskGSA Sample.gsa "$GPGSA,A,3*00"]) eq_refl).
Defined.

(** Of the three sentences framed two are queued, behind the pending
    task and in the order of the sentences. *)
Example scripted_scan_queues_two :
  exists s',
    @ProcessNMEABuffer Scripted.decoder Scripted.reading [Byte.x24] = Ok (ERROR_OK, s')
    /\ option_map pending (mParserThreadPoolObj s') =
         Some [TaskGSA Sample.gsa "$GPGSA,A,3*00";
               TaskGGA Sample.gga "$GPGGA,123519,4807.038,N*47";
               TaskRMC Sample.rmc "$GPRMC,123519,A,4807.038,N*6A"].
Proof. eexists; split; [vm_compute; reflexivity|reflexivity]. Qed.

Lemma X17_witness :
  (base (snd (SetGpsRMC_Data Sample.env_ok Sample.rmc "$GPRMC,2*00" Sample.waiting))
     = base Sample.waiting
   /\ mNmeaFp (snd (SetGpsRMC_Data Sample.env_ok Sample.rmc "$GPRMC,2*00" Sample.waiting))
        = mNmeaFp Sample.waiting
   /\ mSeekOffset (snd (SetGpsRMC_Data Sample.env_ok Sample.rmc "$GPRMC,2*00" Sample.waiting))
        = mSeekOffset Sample.waiting
   /\ mStopParser (snd (SetGpsRMC_Data Sample.env_ok Sample.rmc "$GPRMC,2*00" Sample.waiting))
        = mStopParser Sample.waiting
   /\ mParserThreadPoolObj
        (snd (SetGpsRMC_Data Sample.env_ok Sample.rmc "$GPRMC,2*00" Sample.waiting))
        = mParserThreadPoolObj Sample.waiting
   /\ watch (snd (SetGpsRMC_Data Sample.env_ok Sample.rmc "$GPRMC,2*00" Sample.waiting))
        = watch Sample.waiting
   /\ freads (snd (SetGpsRMC_Data Sample.env_ok Sample.rmc "$GPRMC,2*00" Sample.waiting))
        = freads Sample.waiting)
  /\ mGpsData (snd (SetGpsRMC_Data Sample.env_ok Sample.rmc "$GPRMC,2*00" Sample.waiting))
     = mk_gps_data (rmc_dLatitude Sample.rmc) (rmc_dLongitude Sample.rmc)
         (rmc_dAltitudeMSL Sample.rmc)
         (PrimFloat.mul (rmc_dSpeedKnots Sample.rmc) 0.514%float)
         (rmc_dTrackAngle Sample.rmc) (horizAccuracy (mGpsData Sample.waiting)).
Proof.
  exact (run_task_writes_FixState_only Sample.env_ok
           (TaskRMC Sample.rmc "$GPRMC,2*00") Sample.waiting _ eq_refl).
Defined.

Lemma X18_witness :
  exists front,
    delivered (snd (SetGpsGGA_Data Sample.env_ok Sample.gga "$GPGGA,1*00" Sample.waiting))
      = delivered Sample.waiting ++ front
        ++ [raw_of Sample.env_ok "$GPGGA,1*00"
              (Nat.pred (clock_reads
                           (snd (SetGpsGGA_Data Sample.env_ok Sample.gga "$GPGGA,1*00"
                                   Sample.waiting))))]
    /\ (front =
          [location_of Sample.env_ok
             (mGpsData (snd (SetGpsGGA_Data Sample.env_ok Sample.gga "$GPGGA,1*00"
                               Sample.waiting)))
             (clock_reads Sample.waiting)]
        /\ clock_reads (snd (SetGpsGGA_Data Sample.env_ok Sample.gga "$GPGGA,1*00"
                               Sample.waiting))
           = S (S (clock_reads Sample.waiting))).
Proof.
  exact (run_task_events Sample.env_ok (TaskGGA Sample.gga "$GPGGA,1*00")
           Sample.waiting _ eq_refl).
Defined.

Lemma X19_witness :
  exists sv s',
    SetGpsGSV_Data Sample.env_ok (Sample.gsv 3) "$GPGSV,3*00" Sample.fresh
      = Ok (false, s')
    /\ delivered s' =
         delivered Sample.fresh
         ++ [parser_sv_cb sv; raw_of Sample.env_ok "$GPGSV,3*00" (clock_reads Sample.fresh)]
    /\ mGpsData s' = mGpsData Sample.fresh
    /\ num_svs sv = nSatsInView (Sample.gsv 3)
    /\ List.length (sv_list sv) = GPS_MAX_SVS
    /\ (forall j, (j < Z.to_nat (nSatsInView (Sample.gsv 3)))%nat ->
          nth_error (sv_list sv) j =
            option_map sv_of_sat (nth_error (SatInfo (Sample.gsv 3)) j))
    /\ (forall j, (Z.to_nat (nSatsInView (Sample.gsv 3)) <= j < GPS_MAX_SVS)%nat ->
          nth_error (sv_list sv) j = Some GpsSvInfo_zero).
Proof.
  refine (SetGpsGSV_Data_within_capacity Sample.env_ok (Sample.gsv 3) "$GPGSV,3*00"
            Sample.fresh _ _);
    [split; vm_compute; discriminate|vm_compute; discriminate].
Defined.

Lemma X20_witness :
  SetGpsGSV_Data Sample.env_ok (Sample.gsv (-1)) "$GPGSV,-1*00" Sample.fresh =
    Ok (false,
        sendNmeaUpdates Sample.env_ok (Some "$GPGSV,-1*00")
          (deliver Sample.fresh
             (parser_sv_cb
                (mkGpsSvStatus (nSatsInView (Sample.gsv (-1)))
                   (repeat GpsSvInfo_zero GPS_MAX_SVS))))).
Proof.
  refine (SetGpsGSV_Data_nonpositive_count Sample.env_ok (Sample.gsv (-1))
            "$GPGSV,-1*00" Sample.fresh _).
  discriminate.
Defined.

Lemma X22_witness :
  exists s1,
    startParsing Sample.env_ok Sample.fresh = Ok (false, s1)
    /\ fst (stopParsing s1) = true
    /\ mNmeaFp (snd (stopParsing s1)) = None
    /\ mSeekOffset (snd (stopParsing s1)) = 0
    /\ mStopParser (snd (stopParsing s1)) = false
    /\ mParserThreadPoolObj (snd (stopParsing s1)) = None
    /\ mGpsData (snd (stopParsing s1)) = gps_data_zero
    /\ watch (snd (stopParsing s1)) = false
    /\ delivered (snd (stopParsing s1)) =
         delivered Sample.fresh ++ [SessionBegin; SessionEnd].
Proof.
  exact (start_then_stop_returns_to_idle Sample.env_ok Sample.fresh Sample.content
           Sample.keyfile (fun b buf => eq_refl) eq_refl eq_refl eq_refl).
Defined.

Lemma X24_witness :
  exists s1 s3,
    startParsing Sample.env_no_config Sample.fresh = Ok (false, s1)
    /\ mNmeaFp s1 = Some (mkFILE Sample.content 0 false)
    /\ mStopParser (snd (stopParsing s1)) = true
    /\ startParsing Sample.env_grown (snd (stopParsing s1)) = Ok (true, s3)
    /\ freads s3 = freads Sample.fresh
    /\ mSeekOffset s3 = 0
    /\ mStopParser s3 = false
    /\ delivered s3 =
         delivered Sample.fresh ++ [SessionBegin; SessionEnd; SessionBegin].
Proof.
  exact (failed_start_then_stop_arms_next_start Sample.env_no_config
           Sample.env_grown Sample.fresh Sample.content Sample.grown
           Sample.keyfile eq_refl eq_refl eq_refl eq_refl).
Defined.
